(** * Applify backend: posts, comments and likes

    A shallow embedding of the route handlers of [src/routes/posts.js] and
    of the comment routes, over the Mongoose models [Post], [Comment] and
    [Like].  A collection is the list of its documents in insertion order;
    a handler is a function from the request and the store to the response
    and the store it leaves behind. *)

From Stdlib Require Import List ZArith Lia Bool String Ascii Arith PeanoNat.
From Stdlib Require Import Permutation Sorted.
Import ListNotations.

Local Open Scope string_scope.
Local Open Scope nat_scope.
Local Open Scope list_scope.

(** ** Documents *)

(** A well-formed ObjectId.  Route parameters are taken after Mongoose's
    cast to ObjectId; [author.toString() !== _id.toString()] is then
    disequality of ids. *)
Definition ObjectId := nat.

(** Post.js: [privacy: { enum: ["public", "private"], default: "public" }]. *)
Inductive Privacy := Public | Private.

(** Like.js: [targetType: { enum: ["Post", "Comment"] }]. *)
Inductive TargetType := TPost | TComment.

Definition Privacy_eqb (a b : Privacy) : bool :=
  match a, b with
  | Public, Public | Private, Private => true
  | _, _ => false
  end.

Definition TargetType_eqb (a b : TargetType) : bool :=
  match a, b with
  | TPost, TPost | TComment, TComment => true
  | _, _ => false
  end.

(** Users are written by the authentication routes only; the handlers below
    read them through [populate]. *)
Record User := mkUser {
  user_id : ObjectId;
  user_email : string;
  user_createdAt : Z
}.

Record Post := mkPost {
  post_id : ObjectId;
  content : string;
  image : option string;
  privacy : Privacy;
  post_author : ObjectId;
  post_createdAt : Z;
  post_updatedAt : Z
}.

Record Comment := mkComment {
  comment_id : ObjectId;
  text : string;
  comment_post : ObjectId;
  comment_author : ObjectId;
  parent : option ObjectId;
  comment_createdAt : Z;
  comment_updatedAt : Z
}.

Record Like := mkLike {
  like_id : ObjectId;
  like_user : ObjectId;
  targetType : TargetType;
  targetId : ObjectId;
  like_createdAt : Z;
  like_updatedAt : Z
}.

(** Every Mongoose document carries an [_id]. *)
Class Document (A : Type) := doc_id : A -> ObjectId.

#[export] Instance User_Document : Document User := user_id.
#[export] Instance Post_Document : Document Post := post_id.
#[export] Instance Comment_Document : Document Comment := comment_id.
#[export] Instance Like_Document : Document Like := like_id.

(** The database: four collections and the source of fresh ObjectIds. *)
Record Store := mkStore {
  users : list User;
  posts : list Post;
  comments : list Comment;
  likes : list Like;
  next_id : ObjectId
}.

(** ** Model queries *)

Section Model.
Context {A : Type} `{Document A}.

(** [Model.findById(id)]: the document, or null. *)
Definition findById (id : ObjectId) (c : list A) : option A :=
  find (fun d => doc_id d =? id) c.

(** [Model.findByIdAndDelete(id)]: removes the one document found. *)
Fixpoint findByIdAndDelete (id : ObjectId) (c : list A) : list A :=
  match c with
  | [] => []
  | d :: c' => if doc_id d =? id then c' else d :: findByIdAndDelete id c'
  end.

(** [Model.deleteMany(filter)]. *)
Definition deleteMany (f : A -> bool) (c : list A) : list A :=
  filter (fun d => negb (f d)) c.

(** [Model.countDocuments(filter)]. *)
Definition countDocuments (f : A -> bool) (c : list A) : nat :=
  List.length (filter f c).

(** [!!(await Model.exists(filter))]. *)
Definition exists_ (f : A -> bool) (c : list A) : bool :=
  existsb f c.

(** [doc.save()] of a document that was read from the collection. *)
Definition save (d : A) (c : list A) : list A :=
  map (fun e => if doc_id e =? doc_id d then d else e) c.

(** [.sort({ createdAt: ... })]: insertion by the order [le]; documents
    with equal keys keep their collection order. *)
Fixpoint insert_by (le : A -> A -> bool) (x : A) (l : list A) : list A :=
  match l with
  | [] => [x]
  | y :: t => if le x y then x :: l else y :: insert_by le x t
  end.

Definition sort_by (le : A -> A -> bool) (l : list A) : list A :=
  fold_right (insert_by le) [] l.
End Model.

(** [populate("author", "firstName lastName email")]: the referenced user,
    or null when the reference dangles. *)
Definition populate (us : list User) (id : ObjectId) : option User :=
  findById id us.

(** Filters of the routes. *)

(** [{ $or: [{ privacy: "public" }, { author: req.user._id }] }] *)
Definition feed_filter (uid : ObjectId) (p : Post) : bool :=
  Privacy_eqb (privacy p) Public || (post_author p =? uid).

(** [{ targetType, targetId }] *)
Definition likes_of (t : TargetType) (tid : ObjectId) (l : Like) : bool :=
  TargetType_eqb (targetType l) t && (targetId l =? tid).

(** [{ user, targetType, targetId }] *)
Definition like_of (uid : ObjectId) (t : TargetType) (tid : ObjectId)
    (l : Like) : bool :=
  (like_user l =? uid) && likes_of t tid l.

(** [{ post: postId, parent: null }] *)
Definition top_level_of (pid : ObjectId) (c : Comment) : bool :=
  (comment_post c =? pid) &&
  match parent c with None => true | Some _ => false end.

(** [{ parent: id }] *)
Definition replies_of (cid : ObjectId) (c : Comment) : bool :=
  match parent c with Some p => p =? cid | None => false end.

(** [{ $or: [{ _id: id }, { parent: id }] }] *)
Definition comment_or_reply (cid : ObjectId) (c : Comment) : bool :=
  (comment_id c =? cid) || replies_of cid c.

(** [.sort({ createdAt: -1 })] and [.sort({ createdAt: 1 })]. *)
Definition newest_first (p q : Post) : bool :=
  (post_createdAt q <=? post_createdAt p)%Z.

Definition oldest_first (c d : Comment) : bool :=
  (comment_createdAt c <=? comment_createdAt d)%Z.

Definition likes_newest_first (l m : Like) : bool :=
  (like_createdAt m <=? like_createdAt l)%Z.

(** ** Request validation (express-validator chains) *)

Record FieldError := mkFieldError {
  field : string;
  msg : string
}.

(** The white space that [trim()] strips, on ASCII text. *)
Definition is_space (c : ascii) : bool :=
  let n := nat_of_ascii c in
  ((9 <=? n) && (n <=? 13)) || (n =? 32).

(** A text that starts with no white space. *)
Definition no_leading_space (l : list ascii) : Prop :=
  match l with
  | [] => True
  | c :: _ => is_space c = false
  end.

Fixpoint drop_spaces (l : list ascii) : list ascii :=
  match l with
  | [] => []
  | c :: t => if is_space c then drop_spaces t else l
  end.

Definition trim (s : string) : string :=
  string_of_list_ascii
    (rev (drop_spaces (rev (drop_spaces (list_ascii_of_string s))))).

(** A missing field is validated as the empty string. *)
Definition to_string (v : option string) : string :=
  match v with Some s => s | None => "" end.

Definition isIn (v : string) (allowed : list string) : bool :=
  existsb (String.eqb v) allowed.

(** [req.body] of the post routes. *)
Record PostBody := mkPostBody {
  body_content : option string;
  body_privacy : option string
}.

(** [validatePost]: the sanitized body and [validationResult(req)]. *)
Definition validatePost (b : PostBody) : PostBody * list FieldError :=
  let c := trim (to_string (body_content b)) in
  let errors :=
    (if String.length c =? 0
     then [mkFieldError "content" "Post content is required"] else []) ++
    (if 5000 <? String.length c
     then [mkFieldError "content"
             "Post content must not exceed 5000 characters"] else []) ++
    match body_privacy b with
    | None => []
    | Some p =>
        if isIn p ["public"; "private"] then []
        else [mkFieldError "privacy"
                "Privacy must be either public or private"]
    end in
  (mkPostBody (Some c) (body_privacy b), errors).

(** [req.body] of the comment routes; replies read [text] only. *)
Record CommentBody := mkCommentBody {
  body_text : option string;
  body_postId : option ObjectId
}.

(** [validateComment]. *)
Definition validateComment (b : CommentBody)
    : CommentBody * list FieldError :=
  let t := trim (to_string (body_text b)) in
  let errors :=
    (if String.length t =? 0
     then [mkFieldError "text" "Comment text is required"] else []) ++
    (if 1000 <? String.length t
     then [mkFieldError "text"
             "Comment must not exceed 1000 characters"] else []) in
  (mkCommentBody (Some t) (body_postId b), errors).

(** The schema's cast of the [privacy] path. *)
Definition Privacy_of_string (p : string) : option Privacy :=
  if String.eqb p "public" then Some Public
  else if String.eqb p "private" then Some Private
  else None.

(** ** Responses *)

Record PostView := mkPostView {
  pv_post : Post;
  pv_author : option User;
  pv_likeCount : nat;
  pv_isLiked : bool
}.

Record ReplyView := mkReplyView {
  rv_comment : Comment;
  rv_author : option User;
  rv_likeCount : nat;
  rv_isLiked : bool
}.

Record CommentView := mkCommentView {
  cv_comment : Comment;
  cv_author : option User;
  cv_likeCount : nat;
  cv_isLiked : bool;
  cv_replies : list ReplyView
}.

Record Pagination := mkPagination {
  page : Z;
  limit : Z;
  total : Z;
  pages : Z
}.

Inductive Payload :=
| NoData
| Errors (errors : list FieldError)
| PostData (p : Post) (author : option User)
| CommentData (c : Comment) (author : option User)
| FeedData (ps : list PostView) (pagination : Pagination)
| CommentsData (cs : list CommentView)
| LikeData (isLiked : bool) (likeCount : nat)
| LikersData (ls : list (option User * Z)).

Record Response := mkResponse {
  status : nat;
  success : bool;
  message : option string;
  data : Payload
}.

Definition ok (m : string) (d : Payload) : Response :=
  mkResponse 200 true (Some m) d.

Definition ok_data (d : Payload) : Response :=
  mkResponse 200 true None d.

Definition created (m : string) (d : Payload) : Response :=
  mkResponse 201 true (Some m) d.

Definition bad_request (errors : list FieldError) : Response :=
  mkResponse 400 false None (Errors errors).

Definition forbidden (m : string) : Response :=
  mkResponse 403 false (Some m) NoData.

Definition not_found (m : string) : Response :=
  mkResponse 404 false (Some m) NoData.

(** [next(error)]: the error middleware answers for the handler. *)
Definition server_error : Response :=
  mkResponse 500 false None NoData.

Definition is_nil {A : Type} (l : list A) : bool :=
  match l with [] => true | _ => false end.

(** ** Writes *)

Definition set_posts (ps : list Post) (s : Store) : Store :=
  mkStore (users s) ps (comments s) (likes s) (next_id s).

Definition set_comments (cs : list Comment) (s : Store) : Store :=
  mkStore (users s) (posts s) cs (likes s) (next_id s).

Definition set_likes (ls : list Like) (s : Store) : Store :=
  mkStore (users s) (posts s) (comments s) ls (next_id s).

Definition fresh (s : Store) : Store :=
  mkStore (users s) (posts s) (comments s) (likes s) (S (next_id s)).

(** [Post.create]: the schema trims [content], requires it and bounds its
    length; a document that fails is rejected with a ValidationError. *)
Definition Post_create (c : string) (img : option string) (pr : Privacy)
    (author : ObjectId) (now : Z) (s : Store) : option (Post * Store) :=
  let c := trim c in
  if (String.length c =? 0) || (5000 <? String.length c) then None
  else
    let p := mkPost (next_id s) c img pr author now now in
    Some (p, fresh (set_posts (posts s ++ [p]) s)).

(** [Comment.create], with the same checks on [text]. *)
Definition Comment_create (t : string) (post author : ObjectId)
    (par : option ObjectId) (now : Z) (s : Store)
    : option (Comment * Store) :=
  let t := trim t in
  if (String.length t =? 0) || (1000 <? String.length t) then None
  else
    let c := mkComment (next_id s) t post author par now now in
    Some (c, fresh (set_comments (comments s ++ [c]) s)).

(** [Like.create]: the compound unique index on (user, targetType,
    targetId) rejects a second like of the same target by the same user. *)
Definition Like_create (uid : ObjectId) (t : TargetType) (tid : ObjectId)
    (now : Z) (s : Store) : option (Like * Store) :=
  if exists_ (like_of uid t tid) (likes s) then None
  else
    let l := mkLike (next_id s) uid t tid now now in
    Some (l, fresh (set_likes (likes s ++ [l]) s)).

(** ** Post routes *)

(** [POST /]: [file] is [req.file] after the upload, [Some None] when the
    image host rejects it. *)
Definition create_post (uid : ObjectId) (now : Z) (b : PostBody)
    (file : option (option string)) (s : Store) : Response * Store :=
  let (b', errors) := validatePost b in
  if negb (is_nil errors) then (bad_request errors, s)
  else
    let pr := match body_privacy b' with
              | None => Some Public
              | Some p => Privacy_of_string p
              end in
    match file, pr with
    | Some None, _ | _, None => (server_error, s)
    | _, Some pr =>
        let imageUrl := match file with Some u => u | None => None end in
        match Post_create (to_string (body_content b')) imageUrl pr uid now s
        with
        | None => (server_error, s)
        | Some (p, s') =>
            (created "Post created successfully"
               (PostData p (populate (users s') (post_author p))), s')
        end
    end.

(** [parseInt(q) || d]: [None] is NaN. *)
Definition parse_or (q : option Z) (d : Z) : Z :=
  match q with
  | None | Some 0%Z => d
  | Some n => n
  end.

(** [Math.ceil(total / limit)]. *)
Definition ceil_div (a b : Z) : Z := (- ((- a) / b))%Z.

Definition post_view (uid : ObjectId) (s : Store) (p : Post) : PostView :=
  mkPostView p (populate (users s) (post_author p))
    (countDocuments (likes_of TPost (post_id p)) (likes s))
    (exists_ (like_of uid TPost (post_id p)) (likes s)).

(** The page of the feed query: find, sort, skip, limit.  A negative limit
    asks for as many documents as its absolute value. *)
Definition feed_page (uid : ObjectId) (skip lim : Z) (s : Store)
    : list Post :=
  firstn (Z.to_nat (Z.abs lim))
    (skipn (Z.to_nat skip)
       (sort_by newest_first (filter (feed_filter uid) (posts s)))).

(** [GET /]: the store refuses a negative skip. *)
Definition get_feed (uid : ObjectId) (qpage qlimit : option Z) (s : Store)
    : Response :=
  let page := parse_or qpage 1 in
  let limit := parse_or qlimit 10 in
  let skip := ((page - 1) * limit)%Z in
  if (skip <? 0)%Z then server_error
  else
    let posts' := feed_page uid skip limit s in
    let postsWithLikes := map (post_view uid s) posts' in
    let total := Z.of_nat (countDocuments (feed_filter uid) (posts s)) in
    ok_data (FeedData postsWithLikes
               (mkPagination page limit total (ceil_div total limit))).

(** [PUT /:id]: validation runs before the handler body. *)
Definition update_post (uid pid : ObjectId) (now : Z) (b : PostBody)
    (s : Store) : Response * Store :=
  let (b', errors) := validatePost b in
  if negb (is_nil errors) then (bad_request errors, s)
  else
    match findById pid (posts s) with
    | None => (not_found "Post not found", s)
    | Some post =>
        if negb (post_author post =? uid)
        then (forbidden "You are not authorized to update this post", s)
        else
          let c := trim (to_string (body_content b')) in
          let pr := match body_privacy b' with
                    | None | Some "" => Some (privacy post)
                    | Some p => Privacy_of_string p
                    end in
          match pr with
          | None => (server_error, s)
          | Some pr =>
              if (String.length c =? 0) || (5000 <? String.length c)
              then (server_error, s)
              else
                let modified :=
                  negb (String.eqb c (content post)) ||
                  negb (Privacy_eqb pr (privacy post)) in
                let post' :=
                  mkPost (post_id post) c (image post) pr (post_author post)
                    (post_createdAt post)
                    (if modified then now else post_updatedAt post) in
                let s' := set_posts (save post' (posts s)) s in
                (ok "Post updated successfully"
                   (PostData post' (populate (users s') (post_author post'))),
                 s')
          end
    end.

(** [DELETE /:id]. *)
Definition delete_post (uid pid : ObjectId) (s : Store) : Response * Store :=
  match findById pid (posts s) with
  | None => (not_found "Post not found", s)
  | Some post =>
      if negb (post_author post =? uid)
      then (forbidden "You are not authorized to delete this post", s)
      else
        let s1 := set_posts (findByIdAndDelete pid (posts s)) s in
        let s2 := set_likes (deleteMany (likes_of TPost pid) (likes s1)) s1 in
        (ok "Post deleted successfully" NoData, s2)
  end.

(** The body shared by the two [POST /:id/like] handlers once the target
    was found. *)
Definition toggle (uid : ObjectId) (t : TargetType) (tid : ObjectId)
    (now : Z) (liked unliked : string) (s : Store) : Response * Store :=
  match find (like_of uid t tid) (likes s) with
  | Some existingLike =>
      let s' := set_likes
                  (findByIdAndDelete (like_id existingLike) (likes s)) s in
      let likeCount := countDocuments (likes_of t tid) (likes s') in
      (ok unliked (LikeData false likeCount), s')
  | None =>
      match Like_create uid t tid now s with
      | None => (server_error, s)
      | Some (_, s') =>
          let likeCount := countDocuments (likes_of t tid) (likes s') in
          (ok liked (LikeData true likeCount), s')
      end
  end.

(** [POST /:id/like] on a post. *)
Definition like_post (uid pid : ObjectId) (now : Z) (s : Store)
    : Response * Store :=
  match findById pid (posts s) with
  | None => (not_found "Post not found", s)
  | Some _ => toggle uid TPost pid now "Post liked" "Post unliked" s
  end.

(** [GET /:id/likes]. *)
Definition likers (t : TargetType) (tid : ObjectId) (s : Store) : Response :=
  let likes' := sort_by likes_newest_first
                  (filter (likes_of t tid) (likes s)) in
  ok_data (LikersData
             (map (fun l => (populate (users s) (like_user l),
                             like_createdAt l)) likes')).

(** ** Comment routes *)

(** [POST /]: a missing [postId] finds no post. *)
Definition create_comment (uid : ObjectId) (now : Z) (b : CommentBody)
    (s : Store) : Response * Store :=
  let (b', errors) := validateComment b in
  if negb (is_nil errors) then (bad_request errors, s)
  else
    match body_postId b' with
    | None => (not_found "Post not found", s)
    | Some postId =>
        match findById postId (posts s) with
        | None => (not_found "Post not found", s)
        | Some _ =>
            match Comment_create (to_string (body_text b')) postId uid None
                    now s with
            | None => (server_error, s)
            | Some (c, s') =>
                (created "Comment created successfully"
                   (CommentData c (populate (users s') (comment_author c))),
                 s')
            end
        end
    end.

Definition reply_view (uid : ObjectId) (s : Store) (r : Comment)
    : ReplyView :=
  mkReplyView r (populate (users s) (comment_author r))
    (countDocuments (likes_of TComment (comment_id r)) (likes s))
    (exists_ (like_of uid TComment (comment_id r)) (likes s)).

Definition comment_view (uid : ObjectId) (s : Store) (c : Comment)
    : CommentView :=
  let replies := sort_by oldest_first
                   (filter (replies_of (comment_id c)) (comments s)) in
  mkCommentView c (populate (users s) (comment_author c))
    (countDocuments (likes_of TComment (comment_id c)) (likes s))
    (exists_ (like_of uid TComment (comment_id c)) (likes s))
    (map (reply_view uid s) replies).

(** [GET /:postId]: top-level comments of the post, each with its replies. *)
Definition get_comments (uid postId : ObjectId) (s : Store) : Response :=
  let comments' := sort_by oldest_first
                     (filter (top_level_of postId) (comments s)) in
  ok_data (CommentsData (map (comment_view uid s) comments')).

(** [POST /:id/reply]. *)
Definition reply_comment (uid parentCommentId : ObjectId) (now : Z)
    (b : CommentBody) (s : Store) : Response * Store :=
  let (b', errors) := validateComment b in
  if negb (is_nil errors) then (bad_request errors, s)
  else
    match findById parentCommentId (comments s) with
    | None => (not_found "Parent comment not found", s)
    | Some parentComment =>
        match Comment_create (to_string (body_text b'))
                (comment_post parentComment) uid (Some parentCommentId)
                now s with
        | None => (server_error, s)
        | Some (r, s') =>
            (created "Reply created successfully"
               (CommentData r (populate (users s') (comment_author r))), s')
        end
    end.

(** [POST /:id/like] on a comment. *)
Definition like_comment (uid cid : ObjectId) (now : Z) (s : Store)
    : Response * Store :=
  match findById cid (comments s) with
  | None => (not_found "Comment not found", s)
  | Some _ => toggle uid TComment cid now "Comment liked" "Comment unliked" s
  end.

(** [DELETE /:id]. *)
Definition delete_comment (uid cid : ObjectId) (s : Store)
    : Response * Store :=
  match findById cid (comments s) with
  | None => (not_found "Comment not found", s)
  | Some comment =>
      if negb (comment_author comment =? uid)
      then (forbidden "You are not authorized to delete this comment", s)
      else
        let s1 := set_comments
                    (deleteMany (comment_or_reply cid) (comments s)) s in
        let s2 := set_likes
                    (deleteMany (likes_of TComment cid) (likes s1)) s1 in
        (ok "Comment deleted successfully" NoData, s2)
  end.

(** ** The service as a transition system *)

(** An authenticated request: [authenticate] has resolved [req.user._id],
    and [now] is the clock read by the timestamps. *)
Inductive Request :=
| CreatePost (b : PostBody) (file : option (option string))
| GetFeed (qpage qlimit : option Z)
| UpdatePost (pid : ObjectId) (b : PostBody)
| DeletePost (pid : ObjectId)
| LikePost (pid : ObjectId)
| PostLikes (pid : ObjectId)
| CreateComment (b : CommentBody)
| GetComments (postId : ObjectId)
| ReplyComment (cid : ObjectId) (b : CommentBody)
| LikeComment (cid : ObjectId)
| CommentLikes (cid : ObjectId)
| DeleteComment (cid : ObjectId).

Definition handle (uid : ObjectId) (now : Z) (r : Request) (s : Store)
    : Response * Store :=
  match r with
  | CreatePost b file => create_post uid now b file s
  | GetFeed qpage qlimit => (get_feed uid qpage qlimit s, s)
  | UpdatePost pid b => update_post uid pid now b s
  | DeletePost pid => delete_post uid pid s
  | LikePost pid => like_post uid pid now s
  | PostLikes pid => (likers TPost pid s, s)
  | CreateComment b => create_comment uid now b s
  | GetComments postId => (get_comments uid postId s, s)
  | ReplyComment cid b => reply_comment uid cid now b s
  | LikeComment cid => like_comment uid cid now s
  | CommentLikes cid => (likers TComment cid s, s)
  | DeleteComment cid => delete_comment uid cid s
  end.

(** A deployment starts with no post, comment or like; users come from the
    authentication routes. *)
Definition initial (s : Store) : Prop :=
  posts s = [] /\ comments s = [] /\ likes s = [].

Inductive reachable : Store -> Prop :=
| reachable_initial s : initial s -> reachable s
| reachable_step s uid now r :
    reachable s -> reachable (snd (handle uid now r s)).

(** Runs a list of requests from a store, oldest first. *)
Fixpoint run (rs : list (ObjectId * Z * Request)) (s : Store) : Store :=
  match rs with
  | [] => s
  | (uid, now, r) :: rs' => run rs' (snd (handle uid now r s))
  end.

(** ** Store invariants *)

(** ObjectIds handed out so far lie below [next_id], and no collection
    holds an [_id] twice. *)
Definition ids_below {A : Type} `{Document A} (n : ObjectId) (c : list A)
    : Prop :=
  Forall (fun d => doc_id d < n) c.

Record well_formed (s : Store) : Prop := {
  wf_posts : ids_below (next_id s) (posts s);
  wf_comments : ids_below (next_id s) (comments s);
  wf_likes : ids_below (next_id s) (likes s);
  wf_posts_nodup : NoDup (map post_id (posts s));
  wf_comments_nodup : NoDup (map comment_id (comments s));
  wf_likes_nodup : NoDup (map like_id (likes s))
}.

(** The key of the unique index of Like.js. *)
Definition like_key (l : Like) : ObjectId * TargetType * ObjectId :=
  (like_user l, targetType l, targetId l).

Definition likes_unique (s : Store) : Prop :=
  NoDup (map like_key (likes s)).

(** What a request can do to the Like collection. *)
Inductive likes_change (s : Store) : list Like -> Prop :=
| likes_kept : likes_change s (likes s)
| likes_filtered f : likes_change s (filter f (likes s))
| likes_removed id : likes_change s (findByIdAndDelete id (likes s))
| likes_added uid t tid now :
    exists_ (like_of uid t tid) (likes s) = false ->
    likes_change s (likes s ++ [mkLike (next_id s) uid t tid now now]).

(** Closes the cases where the handler leaves the likes alone. *)
Ltac kept := simpl; apply likes_kept.

(** ** Observations on responses *)

(** The posts of a feed response, in the order returned. *)
Definition feed_posts (r : Response) : list Post :=
  match data r with
  | FeedData ps _ => map pv_post ps
  | _ => []
  end.

Definition feed_pagination (r : Response) : option Pagination :=
  match data r with
  | FeedData _ pg => Some pg
  | _ => None
  end.

(** The top-level comments of a comment listing. *)
Definition listed_comments (r : Response) : list Comment :=
  match data r with
  | CommentsData cs => map cv_comment cs
  | _ => []
  end.

(** The like route of each target type, and the lookup it starts with. *)
Definition like_route (t : TargetType)
    : ObjectId -> ObjectId -> Z -> Store -> Response * Store :=
  match t with
  | TPost => like_post
  | TComment => like_comment
  end.

Definition target_stored (t : TargetType) (id : ObjectId) (s : Store)
    : bool :=
  match t with
  | TPost => match findById id (posts s) with Some _ => true | None => false end
  | TComment =>
      match findById id (comments s) with Some _ => true | None => false end
  end.

(** The messages of the two like routes. *)
Definition liked_message (t : TargetType) : string :=
  match t with TPost => "Post liked" | TComment => "Comment liked" end.

Definition unliked_message (t : TargetType) : string :=
  match t with TPost => "Post unliked" | TComment => "Comment unliked" end.

(** Orders produced by the two sorts. *)
Definition not_older (p q : Post) : Prop :=
  (post_createdAt q <= post_createdAt p)%Z.

Definition not_newer (c d : Comment) : Prop :=
  (comment_createdAt c <= comment_createdAt d)%Z.

(** ** Sample stores *)

Definition alice : User := mkUser 1 "alice@example.com" 0.
Definition bob : User := mkUser 2 "bob@example.com" 0.

(** Two registered users and nothing posted yet. *)
Definition fresh_store : Store := mkStore [alice; bob] [] [] [] 100.

(** Alice posts privately, Bob comments, Alice replies. *)
Definition thread_requests : list (ObjectId * Z * Request) :=
  [ (1, 10%Z, CreatePost (mkPostBody (Some " hello ") (Some "private")) None);
    (2, 11%Z, CreateComment (mkCommentBody (Some "first") (Some 100)));
    (1, 12%Z, ReplyComment 101 (mkCommentBody (Some "thanks") None)) ].

Definition thread_store : Store := run thread_requests fresh_store.

(** Alice then likes her post. *)
Definition liked_store : Store :=
  run [(1, 13%Z, LikePost 100)] thread_store.

(** Bob likes Alice's reply and Alice likes Bob's comment. *)
Definition busy_store : Store :=
  run [(2, 14%Z, LikeComment 102); (1, 15%Z, LikeComment 101)] liked_store.

(** Bob answers Alice's reply. *)
Definition nested_store : Store :=
  run [(2, 16%Z, ReplyComment 102 (mkCommentBody (Some "again") None))]
    thread_store.

(** Twenty-five public posts of Alice and a private one of Bob. *)
Definition numbered_post (i : nat) : Post :=
  mkPost i "post" None Public 1 (Z.of_nat i) (Z.of_nat i).

Definition crowded_store : Store :=
  mkStore [alice; bob]
    (map numbered_post (seq 0 25) ++ [mkPost 25 "secret" None Private 2 30 30])
    [] [] 26.

(** ** More observations *)

(** The annotated posts of a feed response. *)
Definition feed_views (r : Response) : list PostView :=
  match data r with
  | FeedData ps _ => ps
  | _ => []
  end.

(** The annotated comments of a comment listing. *)
Definition listed_views (r : Response) : list CommentView :=
  match data r with
  | CommentsData cs => cs
  | _ => []
  end.

(** The entries of a likers response. *)
Definition listed_likers (r : Response) : list (option User * Z) :=
  match data r with
  | LikersData ls => ls
  | _ => []
  end.

(** Every comment shown by a comment listing, top-level or reply. *)
Definition shown_comments (r : Response) : list Comment :=
  flat_map (fun v => cv_comment v :: map rv_comment (cv_replies v))
    (listed_views r).

(** The privacy a valid body asks for, [d] when it names none. *)
Definition requested_privacy (b : PostBody) (d : Privacy) : Privacy :=
  match body_privacy b with
  | None => d
  | Some p => if String.eqb p "private" then Private else Public
  end.

(** [req.file] turned into the stored image reference. *)
Definition uploaded_image (file : option (option string)) : option string :=
  match file with Some u => u | None => None end.

(** What a request can do to the Post collection. *)
Inductive posts_change (s : Store) : list Post -> Prop :=
| posts_kept : posts_change s (posts s)
| posts_added c img pr author now :
    posts_change s
      (posts s ++ [mkPost (next_id s) c img pr author now now])
| posts_saved post c pr updated :
    In post (posts s) ->
    posts_change s
      (save (mkPost (post_id post) c (image post) pr (post_author post)
               (post_createdAt post) updated) (posts s))
| posts_removed id : posts_change s (findByIdAndDelete id (posts s)).

(** What a request can do to the Comment collection. *)
Inductive comments_change (s : Store) : list Comment -> Prop :=
| comments_kept : comments_change s (comments s)
| comments_added t post author par now :
    (forall p, par = Some p ->
       exists pc, findById p (comments s) = Some pc /\ comment_post pc = post) ->
    comments_change s
      (comments s ++ [mkComment (next_id s) t post author par now now])
| comments_filtered f : comments_change s (filter f (comments s)).

(** References handed out so far: a reply's parent id lies below
    [next_id]. *)
Definition parents_below (s : Store) : Prop :=
  forall c p, In c (comments s) -> parent c = Some p -> p < next_id s.

(** Likes point at ids handed out so far. *)
Definition targets_below (s : Store) : Prop :=
  forall l, In l (likes s) -> targetId l < next_id s.

(** A reply is filed under the post of its parent. *)
Definition replies_follow_parent (s : Store) : Prop :=
  forall r pc, In r (comments s) -> In pc (comments s) ->
    parent r = Some (comment_id pc) -> comment_post r = comment_post pc.

(** The entry of the likers listing for one Like. *)
Definition liker_entry (s : Store) (l : Like) : option User * Z :=
  (populate (users s) (like_user l), like_createdAt l).

(** The writes a request can leave behind, one case per write path of the
    handlers. *)
Inductive effect (s : Store) : Store -> Prop :=
| effect_none : effect s s
| effect_post_created p :
    post_id p = next_id s ->
    effect s (fresh (set_posts (posts s ++ [p]) s))
| effect_post_saved p :
    effect s (set_posts (save p (posts s)) s)
| effect_post_deleted pid :
    effect s
      (set_likes (deleteMany (likes_of TPost pid) (likes s))
         (set_posts (findByIdAndDelete pid (posts s)) s))
| effect_unliked id :
    effect s (set_likes (findByIdAndDelete id (likes s)) s)
| effect_liked uid t tid now :
    target_stored t tid s = true ->
    effect s
      (fresh (set_likes (likes s ++ [mkLike (next_id s) uid t tid now now]) s))
| effect_commented c :
    comment_id c = next_id s ->
    (forall p, parent c = Some p ->
       exists pc, findById p (comments s) = Some pc /\
                  comment_post pc = comment_post c) ->
    effect s (fresh (set_comments (comments s ++ [c]) s))
| effect_comment_deleted cid :
    effect s
      (set_likes (deleteMany (likes_of TComment cid) (likes s))
         (set_comments (deleteMany (comment_or_reply cid) (comments s)) s)).

(** ** Authentication routes ([src/routes/auth.js]) *)

(** What the routes call outside their file: the validator's [isEmail]
    and [normalizeEmail], the hashing done when a user is saved and its
    check [comparePassword(candidate)] (models/User.js), and
    [generateToken] (utils/jwt.js). *)
Class AuthEnv := {
  isEmail : string -> bool;
  normalizeEmail : string -> string;
  hashPassword : string -> string;
  comparePassword : string -> string -> bool;
  generateToken : ObjectId -> string -> string
}.

(** Modelled from the spec: the User document with its password path
    (models/User.js is not among the sources): the user as the other
    routes read it, and the stored password hash. *)
Record Account := mkAccount {
  account_user : User;
  account_password : string
}.

Definition account_email (a : Account) : string :=
  user_email (account_user a).

(** The User collection as the authentication routes see it. *)
Record AuthStore := mkAuthStore {
  accounts : list Account;
  auth_next_id : ObjectId
}.

(** [req.body] of the authentication routes. *)
Record AuthBody := mkAuthBody {
  body_email : option string;
  body_password : option string
}.

(** [/\d/]. *)
Definition is_digit (c : ascii) : bool :=
  let n := nat_of_ascii c in (48 <=? n) && (n <=? 57).

Definition has_digit (s : string) : bool :=
  existsb is_digit (list_ascii_of_string s).

Section AuthRoutes.
Context `{AuthEnv}.

(** [registerValidation]: the sanitized body and the violations. *)
Definition registerValidation (b : AuthBody) : AuthBody * list FieldError :=
  let e := trim (to_string (body_email b)) in
  let p := to_string (body_password b) in
  let errors :=
    (if isEmail e then []
     else [mkFieldError "email" "Please provide a valid email address"]) ++
    (if String.length p <? 6
     then [mkFieldError "password"
             "Password must be at least 6 characters long"] else []) ++
    (if has_digit p then []
     else [mkFieldError "password"
             "Password must contain at least one number"]) in
  (mkAuthBody (Some (normalizeEmail e)) (body_password b), errors).

(** [loginValidation]. *)
Definition loginValidation (b : AuthBody) : AuthBody * list FieldError :=
  let e := trim (to_string (body_email b)) in
  let p := to_string (body_password b) in
  let errors :=
    (if isEmail e then []
     else [mkFieldError "email" "Please provide a valid email address"]) ++
    (if String.length p =? 0
     then [mkFieldError "password" "Password is required"] else []) in
  (mkAuthBody (Some (normalizeEmail e)) (body_password b), errors).

(** What the two routes answer. *)
Inductive AuthPayload :=
| AuthNoData
| AuthErrors (errors : list FieldError)
| AuthUser (user : User)
| AuthSession (token : string) (user : User).

Record AuthResponse := mkAuthResponse {
  auth_status : nat;
  auth_success : bool;
  auth_message : option string;
  auth_data : AuthPayload
}.

(** [User.findOne({ email })]. *)
Definition findOne_email (e : string) (c : list Account) : option Account :=
  find (fun a => String.eqb (account_email a) e) c.

(** [User.create({ email, password })]. *)
Definition User_create (e p : string) (now : Z) (s : AuthStore)
    : Account * AuthStore :=
  let a := mkAccount (mkUser (auth_next_id s) e now) (hashPassword p) in
  (a, mkAuthStore (accounts s ++ [a]) (S (auth_next_id s))).

(** [POST /register], after the rate limiter: validation, [validate],
    then the handler. *)
Definition register (now : Z) (b : AuthBody) (s : AuthStore)
    : AuthResponse * AuthStore :=
  let (b', errors) := registerValidation b in
  if negb (is_nil errors)
  then (mkAuthResponse 400 false None (AuthErrors errors), s)
  else
    let email := to_string (body_email b') in
    let password := to_string (body_password b') in
    match findOne_email email (accounts s) with
    | Some existingUser =>
        (mkAuthResponse 400 false
           (Some "User with this email already exists") AuthNoData, s)
    | None =>
        let (user, s') := User_create email password now s in
        (mkAuthResponse 201 true
           (Some "Registration successful. Please login to continue.")
           (AuthUser (account_user user)), s')
    end.

(** [POST /login], after the rate limiter. *)
Definition login (b : AuthBody) (s : AuthStore) : AuthResponse :=
  let (b', errors) := loginValidation b in
  if negb (is_nil errors)
  then mkAuthResponse 400 false None (AuthErrors errors)
  else
    let email := to_string (body_email b') in
    let password := to_string (body_password b') in
    match findOne_email email (accounts s) with
    | None =>
        mkAuthResponse 401 false (Some "Invalid email or password") AuthNoData
    | Some user =>
        let isPasswordValid :=
          comparePassword (account_password user) password in
        if negb isPasswordValid
        then mkAuthResponse 401 false (Some "Invalid email or password")
               AuthNoData
        else
          let token := generateToken (user_id (account_user user))
                         (account_email user) in
          mkAuthResponse 200 true (Some "Login successful")
            (AuthSession token (account_user user))
    end.
End AuthRoutes.

(** A stand-in environment for examples: an address holds an at sign,
    normalization and hashing mark their input. *)
Definition sample_env : AuthEnv := {|
  isEmail := fun e => existsb (Ascii.eqb "@"%char) (list_ascii_of_string e);
  normalizeEmail := fun e => e;
  hashPassword := fun p => String.append "hash:" p;
  comparePassword := fun stored candidate =>
    String.eqb stored (String.append "hash:" candidate);
  generateToken := fun id e => String.append "token:" e
|}.

Definition empty_accounts : AuthStore := mkAuthStore [] 1.

(** * Properties *)

(** ** Collections *)

Section ModelFacts.
Context {A : Type} `{Document A}.

Lemma findById_some (id : ObjectId) (c : list A) (d : A) :
  findById id c = Some d -> In d c /\ doc_id d = id.
Proof.
  unfold findById. intros Hf. apply find_some in Hf.
  destruct Hf as [Hin Heq]. apply Nat.eqb_eq in Heq. auto.
Qed.

Lemma findById_none (id : ObjectId) (c : list A) :
  findById id c = None -> forall d, In d c -> doc_id d <> id.
Proof.
  unfold findById. intros Hf d Hin Heq.
  apply (find_none _ _ Hf) in Hin. apply Nat.eqb_neq in Hin. auto.
Qed.

Lemma findByIdAndDelete_absent (id : ObjectId) (c : list A) :
  (forall d, In d c -> doc_id d <> id) -> findByIdAndDelete id c = c.
Proof.
  induction c as [|d c IH]; simpl; intros Hc; [reflexivity|].
  destruct (doc_id d =? id) eqn:E.
  - apply Nat.eqb_eq in E. exfalso. apply (Hc d); auto.
  - f_equal. apply IH. intros; apply Hc; auto.
Qed.

(** With distinct [_id]s, deleting by id is deleting every match. *)
Lemma findByIdAndDelete_filter (id : ObjectId) (c : list A) :
  NoDup (map doc_id c) ->
  findByIdAndDelete id c = filter (fun d => negb (doc_id d =? id)) c.
Proof.
  induction c as [|d c IH]; simpl; intros Hnd; [reflexivity|].
  inversion Hnd as [|? ? Hnotin Hnd']; subst.
  destruct (doc_id d =? id) eqn:E; simpl.
  - apply Nat.eqb_eq in E. subst id.
    rewrite <- IH by assumption. symmetry.
    apply findByIdAndDelete_absent.
    intros e He Heq. apply Hnotin. rewrite <- Heq. apply in_map; assumption.
  - f_equal. apply IH; assumption.
Qed.

Lemma findByIdAndDelete_last (c : list A) (d : A) :
  (forall e, In e c -> doc_id e <> doc_id d) ->
  findByIdAndDelete (doc_id d) (c ++ [d]) = c.
Proof.
  induction c as [|e c IH]; simpl; intros Hc.
  - rewrite Nat.eqb_refl. reflexivity.
  - destruct (doc_id e =? doc_id d) eqn:E.
    + apply Nat.eqb_eq in E. exfalso. apply (Hc e); auto.
    + f_equal. apply IH. intros; apply Hc; auto.
Qed.

Lemma findByIdAndDelete_incl (id : ObjectId) (c : list A) (d : A) :
  In d (findByIdAndDelete id c) -> In d c.
Proof.
  induction c as [|e c IH]; simpl; [tauto|].
  destruct (doc_id e =? id); simpl; tauto.
Qed.

Lemma countDocuments_app (f : A -> bool) (c1 c2 : list A) :
  countDocuments f (c1 ++ c2) = countDocuments f c1 + countDocuments f c2.
Proof.
  unfold countDocuments. rewrite filter_app, length_app. reflexivity.
Qed.

Lemma find_app_none (f : A -> bool) (c1 c2 : list A) :
  find f c1 = None -> find f (c1 ++ c2) = find f c2.
Proof.
  induction c1 as [|d c1 IH]; simpl; [reflexivity|].
  destruct (f d); [discriminate | exact IH].
Qed.

Lemma find_none_existsb (f : A -> bool) (c : list A) :
  find f c = None -> existsb f c = false.
Proof.
  induction c as [|d c IH]; simpl; [reflexivity|].
  destruct (f d); [discriminate | exact IH].
Qed.

(** The sort is a stable insertion sort: a permutation, ordered by [le]. *)
Lemma insert_by_perm (le : A -> A -> bool) (x : A) (l : list A) :
  Permutation (insert_by le x l) (x :: l).
Proof.
  induction l as [|y t IH]; simpl; [reflexivity|].
  destruct (le x y); [reflexivity|].
  rewrite IH. apply perm_swap.
Qed.

Lemma sort_by_perm (le : A -> A -> bool) (l : list A) :
  Permutation (sort_by le l) l.
Proof.
  induction l as [|x l IH]; simpl; [reflexivity|].
  rewrite insert_by_perm. apply perm_skip, IH.
Qed.

Lemma sort_by_in (le : A -> A -> bool) (l : list A) (x : A) :
  In x (sort_by le l) <-> In x l.
Proof.
  split; apply Permutation_in;
    [apply sort_by_perm | symmetry; apply sort_by_perm].
Qed.

Section Sorted.
Variable le : A -> A -> bool.
Hypothesis le_total : forall x y, le x y = true \/ le y x = true.
Hypothesis le_trans :
  forall x y z, le x y = true -> le y z = true -> le x z = true.

Lemma insert_by_sorted (x : A) (l : list A) :
  StronglySorted (fun a b => le a b = true) l ->
  StronglySorted (fun a b => le a b = true) (insert_by le x l).
Proof.
  induction 1 as [|y t Hs IH Hall]; simpl.
  - constructor; constructor.
  - destruct (le x y) eqn:E.
    + constructor; [constructor; assumption|].
      constructor; [assumption|].
      eapply Forall_impl; [|exact Hall]. intros; eapply le_trans; eauto.
    + constructor; [assumption|].
      assert (Hyx : le y x = true)
        by (destruct (le_total x y); congruence).
      rewrite Forall_forall in *. intros z Hz.
      apply (Permutation_in _ (insert_by_perm le x t)) in Hz.
      destruct Hz as [<-|Hz]; auto.
Qed.

Lemma sort_by_sorted (l : list A) :
  StronglySorted (fun a b => le a b = true) (sort_by le l).
Proof.
  induction l as [|x l IH]; simpl; [constructor|].
  apply insert_by_sorted, IH.
Qed.
End Sorted.
End ModelFacts.

Lemma StronglySorted_skipn {A : Type} (R : A -> A -> Prop) (n : nat)
    (l : list A) :
  StronglySorted R l -> StronglySorted R (skipn n l).
Proof.
  revert l. induction n as [|n IH]; intros l Hs; simpl; [assumption|].
  destruct l; [constructor|]. inversion Hs; subst. auto.
Qed.

Lemma StronglySorted_firstn {A : Type} (R : A -> A -> Prop) (n : nat)
    (l : list A) :
  StronglySorted R l -> StronglySorted R (firstn n l).
Proof.
  revert l. induction n as [|n IH]; intros l Hs; simpl; [constructor|].
  destruct l; [constructor|]. inversion Hs as [|? ? Hs' Hall]; subst.
  constructor; [auto|].
  rewrite Forall_forall in *. intros y Hy. apply Hall.
  rewrite <- (firstn_skipn n l). apply in_or_app. left. exact Hy.
Qed.

(** ** Validation *)

Lemma drop_spaces_no_leading (l : list ascii) :
  no_leading_space (drop_spaces l).
Proof.
  induction l as [|c t IH]; simpl; [exact I|].
  destruct (is_space c) eqn:E; simpl; assumption.
Qed.

Lemma drop_spaces_fixed (l : list ascii) :
  no_leading_space l -> drop_spaces l = l.
Proof.
  destruct l as [|c t]; simpl; [reflexivity|]. intros ->. reflexivity.
Qed.

Lemma drop_spaces_keeps_last (l : list ascii) (c : ascii) :
  is_space c = false -> exists l', drop_spaces (l ++ [c]) = l' ++ [c].
Proof.
  intros Hc. induction l as [|d t IH]; simpl.
  - rewrite Hc. exists []. reflexivity.
  - destruct (is_space d); [exact IH|]. exists (d :: t). reflexivity.
Qed.

Lemma rtrim_no_leading (l : list ascii) :
  no_leading_space l -> no_leading_space (rev (drop_spaces (rev l))).
Proof.
  destruct l as [|c t]; simpl; [tauto|]. intros Hc.
  destruct (drop_spaces_keeps_last (rev t) c Hc) as [l' ->].
  rewrite rev_app_distr. simpl. exact Hc.
Qed.

Lemma trim_idempotent (s : string) : trim (trim s) = trim s.
Proof.
  unfold trim. rewrite list_ascii_of_string_of_list_ascii.
  set (m := drop_spaces (list_ascii_of_string s)).
  assert (Hm : no_leading_space m) by apply drop_spaces_no_leading.
  rewrite (drop_spaces_fixed _ (rtrim_no_leading m Hm)).
  rewrite rev_involutive.
  rewrite (drop_spaces_fixed _ (drop_spaces_no_leading (rev m))).
  reflexivity.
Qed.

(** A body that passes [validateComment] carries a text that the schema of
    [Comment] accepts. *)
Lemma validateComment_passes (b : CommentBody) :
  snd (validateComment b) = [] ->
  let t := trim (to_string (body_text b)) in
  fst (validateComment b) = mkCommentBody (Some t) (body_postId b) /\
  (String.length t =? 0) || (1000 <? String.length t) = false.
Proof.
  unfold validateComment; simpl. intros He. split; [reflexivity|].
  destruct (String.length _ =? 0); [discriminate|].
  destruct (1000 <? String.length _); [discriminate|]. reflexivity.
Qed.

(** ** Well-formed stores *)

Section IdFacts.
Context {A : Type} `{Document A}.

Lemma ids_below_mono (n m : ObjectId) (c : list A) :
  n <= m -> ids_below n c -> ids_below m c.
Proof.
  intros Hnm. apply Forall_impl. intros d Hd. lia.
Qed.

Lemma ids_below_filter (n : ObjectId) (f : A -> bool) (c : list A) :
  ids_below n c -> ids_below n (filter f c).
Proof.
  unfold ids_below. rewrite !Forall_forall. intros Hc d Hd.
  apply filter_In in Hd. apply Hc, Hd.
Qed.

Lemma ids_below_delete (n id : ObjectId) (c : list A) :
  ids_below n c -> ids_below n (findByIdAndDelete id c).
Proof.
  unfold ids_below. rewrite !Forall_forall. intros Hc d Hd.
  apply Hc. eapply findByIdAndDelete_incl; eauto.
Qed.

Lemma ids_below_append (n : ObjectId) (c : list A) (d : A) :
  ids_below n c -> doc_id d = n -> ids_below (S n) (c ++ [d]).
Proof.
  intros Hc Hd. apply Forall_app. split.
  - eapply ids_below_mono; [|exact Hc]. lia.
  - constructor; [lia | constructor].
Qed.

Lemma ids_below_save (n : ObjectId) (c : list A) (d e : A) :
  ids_below n c -> In e c -> doc_id d = doc_id e -> ids_below n (save d c).
Proof.
  unfold ids_below, save. rewrite !Forall_forall. intros Hc He Hd x Hx.
  apply in_map_iff in Hx. destruct Hx as [y [Hy Hin]].
  destruct (doc_id y =? doc_id d); subst x; [rewrite Hd|]; auto.
Qed.

Lemma save_ids (c : list A) (d : A) :
  map doc_id (save d c) = map doc_id c.
Proof.
  unfold save. rewrite map_map. apply map_ext. intros e.
  destruct (doc_id e =? doc_id d) eqn:E; [|reflexivity].
  apply Nat.eqb_eq in E. congruence.
Qed.
End IdFacts.

Section KeyFacts.
Context {A B : Type} (key : A -> B).

Lemma NoDup_map_filter (f : A -> bool) (c : list A) :
  NoDup (map key c) -> NoDup (map key (filter f c)).
Proof.
  induction c as [|d c IH]; simpl; intros Hnd; [constructor|].
  inversion Hnd as [|? ? Hnotin Hnd']; subst.
  destruct (f d); simpl; [constructor|]; auto.
  intros Hin. apply Hnotin. apply in_map_iff in Hin.
  destruct Hin as [e [He Hin]]. apply filter_In in Hin.
  apply in_map_iff. exists e. tauto.
Qed.

Lemma NoDup_map_delete `{Document A} (id : ObjectId) (c : list A) :
  NoDup (map key c) -> NoDup (map key (findByIdAndDelete id c)).
Proof.
  induction c as [|d c IH]; simpl; intros Hnd; [constructor|].
  inversion Hnd as [|? ? Hnotin Hnd']; subst.
  destruct (doc_id d =? id); simpl; [assumption|].
  constructor; [|auto].
  intros Hin. apply Hnotin. apply in_map_iff in Hin.
  destruct Hin as [e [He Hin]]. apply findByIdAndDelete_incl in Hin.
  apply in_map_iff. exists e. tauto.
Qed.

Lemma NoDup_map_append (c : list A) (d : A) :
  NoDup (map key c) -> (forall e, In e c -> key e <> key d) ->
  NoDup (map key (c ++ [d])).
Proof.
  intros Hnd Hd. rewrite map_app. simpl.
  apply Permutation_NoDup with (l := key d :: map key c).
  - apply Permutation_cons_append.
  - constructor; [|assumption].
    intros Hin. apply in_map_iff in Hin. destruct Hin as [e [He Hin]].
    apply (Hd e Hin He).
Qed.
End KeyFacts.

Lemma ids_below_fresh {A : Type} `{Document A} (n : ObjectId) (c : list A)
    (e : A) :
  ids_below n c -> In e c -> doc_id e <> n.
Proof.
  unfold ids_below. rewrite Forall_forall. intros Hc He.
  specialize (Hc e He). lia.
Qed.

Lemma Post_create_wf c img pr author now s p s' :
  well_formed s -> Post_create c img pr author now s = Some (p, s') ->
  well_formed s'.
Proof.
  unfold Post_create. intros [H1 H2 H3 H4 H5 H6] Hc.
  destruct (_ || _); [discriminate|]. inversion Hc; subst; clear Hc.
  split; simpl; try assumption.
  - apply ids_below_append; [assumption | reflexivity].
  - eapply ids_below_mono; [|eassumption]; lia.
  - eapply ids_below_mono; [|eassumption]; lia.
  - apply NoDup_map_append; [assumption|].
    intros e He. simpl. apply (ids_below_fresh (next_id s) (posts s) e H1 He).
Qed.

Lemma Comment_create_wf t post author par now s c s' :
  well_formed s -> Comment_create t post author par now s = Some (c, s') ->
  well_formed s'.
Proof.
  unfold Comment_create. intros [H1 H2 H3 H4 H5 H6] Hc.
  destruct (_ || _); [discriminate|]. inversion Hc; subst; clear Hc.
  split; simpl; try assumption.
  - eapply ids_below_mono; [|eassumption]; lia.
  - apply ids_below_append; [assumption | reflexivity].
  - eapply ids_below_mono; [|eassumption]; lia.
  - apply NoDup_map_append; [assumption|].
    intros e He. simpl.
    apply (ids_below_fresh (next_id s) (comments s) e H2 He).
Qed.

Lemma Like_create_wf uid t tid now s l s' :
  well_formed s -> Like_create uid t tid now s = Some (l, s') ->
  well_formed s'.
Proof.
  unfold Like_create. intros [H1 H2 H3 H4 H5 H6] Hc.
  destruct (exists_ _ _); [discriminate|]. inversion Hc; subst; clear Hc.
  split; simpl; try assumption.
  - eapply ids_below_mono; [|eassumption]; lia.
  - eapply ids_below_mono; [|eassumption]; lia.
  - apply ids_below_append; [assumption | reflexivity].
  - apply NoDup_map_append; [assumption|].
    intros e He. simpl. apply (ids_below_fresh (next_id s) (likes s) e H3 He).
Qed.

Lemma toggle_wf uid t tid now liked unliked s :
  well_formed s -> well_formed (snd (toggle uid t tid now liked unliked s)).
Proof.
  intros Hwf. unfold toggle.
  destruct (find _ (likes s)) as [l|].
  - destruct Hwf as [H1 H2 H3 H4 H5 H6]. split; simpl; try assumption.
    + apply ids_below_delete; assumption.
    + apply (NoDup_map_delete like_id); assumption.
  - destruct (Like_create uid t tid now s) as [[l s']|] eqn:E; simpl;
      [eapply Like_create_wf; eauto | assumption].
Qed.

(** Every handler keeps the store well formed. *)
Lemma handle_wf uid now r s :
  well_formed s -> well_formed (snd (handle uid now r s)).
Proof.
  intros Hwf. destruct r; simpl; try assumption.
  - unfold create_post. destruct (validatePost b) as [b' errors].
    destruct (negb (is_nil errors)); [assumption|].
    destruct file as [[u|]|];
      destruct (match body_privacy b' with
                | Some p => Privacy_of_string p | None => Some Public end);
      try assumption;
      match goal with
      | |- context [Post_create ?c ?i ?p ?a ?n ?s] =>
          destruct (Post_create c i p a n s) as [[q s']|] eqn:E; simpl;
            [eapply Post_create_wf; eauto | assumption]
      end.
  - unfold update_post. destruct (validatePost b) as [b' errors].
    destruct (negb (is_nil errors)); [assumption|].
    destruct (findById pid (posts s)) as [post|] eqn:Ef; [|assumption].
    destruct (negb (post_author post =? uid)); [assumption|].
    destruct (match body_privacy b' with
              | Some "" | None => Some (privacy post)
              | Some p => Privacy_of_string p end); [|assumption].
    destruct (_ || _); [assumption|].
    apply findById_some in Ef. destruct Ef as [Hin Hid].
    destruct Hwf as [H1 H2 H3 H4 H5 H6]. split; simpl; try assumption.
    + eapply ids_below_save; eauto.
    + change post_id with (@doc_id Post _). rewrite save_ids. assumption.
  - unfold delete_post.
    destruct (findById pid (posts s)) as [post|]; [|assumption].
    destruct (negb (post_author post =? uid)); [assumption|].
    destruct Hwf as [H1 H2 H3 H4 H5 H6]. split; simpl; try assumption.
    + apply ids_below_delete; assumption.
    + apply ids_below_filter; assumption.
    + apply (NoDup_map_delete post_id); assumption.
    + apply NoDup_map_filter; assumption.
  - unfold like_post.
    destruct (findById pid (posts s)); [|assumption].
    apply toggle_wf; assumption.
  - unfold create_comment. destruct (validateComment b) as [b' errors].
    destruct (negb (is_nil errors)); [assumption|].
    destruct (body_postId b') as [postId|]; [|assumption].
    destruct (findById postId (posts s)); [|assumption].
    destruct (Comment_create _ _ _ _ _ _) as [[c s']|] eqn:E; simpl;
      [eapply Comment_create_wf; eauto | assumption].
  - unfold reply_comment. destruct (validateComment b) as [b' errors].
    destruct (negb (is_nil errors)); [assumption|].
    destruct (findById cid (comments s)) as [pc|]; [|assumption].
    destruct (Comment_create _ _ _ _ _ _) as [[c s']|] eqn:E; simpl;
      [eapply Comment_create_wf; eauto | assumption].
  - unfold like_comment.
    destruct (findById cid (comments s)); [|assumption].
    apply toggle_wf; assumption.
  - unfold delete_comment.
    destruct (findById cid (comments s)) as [c|]; [|assumption].
    destruct (negb (comment_author c =? uid)); [assumption|].
    destruct Hwf as [H1 H2 H3 H4 H5 H6]. split; simpl; try assumption.
    + apply ids_below_filter; assumption.
    + apply ids_below_filter; assumption.
    + apply NoDup_map_filter; assumption.
    + apply NoDup_map_filter; assumption.
Qed.

Lemma initial_wf (s : Store) : initial s -> well_formed s.
Proof.
  intros [Hp [Hc Hl]].
  split; unfold ids_below; rewrite ?Hp, ?Hc, ?Hl; simpl; constructor.
Qed.

Lemma reachable_wf (s : Store) : reachable s -> well_formed s.
Proof.
  induction 1 as [s Hi | s uid now r _ IH];
    [apply initial_wf | apply handle_wf]; assumption.
Qed.

Lemma run_reachable rs s : reachable s -> reachable (run rs s).
Proof.
  revert s. induction rs as [|[[uid now] r] rs IH]; intros s Hs; simpl;
    [assumption|].
  apply IH. apply reachable_step. assumption.
Qed.

Lemma fresh_store_initial : initial fresh_store.
Proof. repeat split. Qed.

Lemma thread_store_reachable : reachable thread_store.
Proof.
  apply run_reachable. apply reachable_initial. apply fresh_store_initial.
Qed.

(** ** Likes *)

(** The like route is the toggle behind the target lookup. *)
Lemma like_route_stored t uid id now s :
  target_stored t id s = true ->
  like_route t uid id now s =
  toggle uid t id now (liked_message t) (unliked_message t) s.
Proof.
  destruct t; simpl; unfold like_post, like_comment.
  - destruct (findById id (posts s)); [reflexivity | discriminate].
  - destruct (findById id (comments s)); [reflexivity | discriminate].
Qed.

Lemma like_route_missing t uid id now s :
  target_stored t id s = false ->
  status (fst (like_route t uid id now s)) = 404 /\
  snd (like_route t uid id now s) = s.
Proof.
  destruct t; simpl; unfold like_post, like_comment.
  - destruct (findById id (posts s)); [discriminate | auto].
  - destruct (findById id (comments s)); [discriminate | auto].
Qed.

(** The toggle writes to the likes only. *)
Lemma toggle_frame uid t tid now liked unliked s :
  let s' := snd (toggle uid t tid now liked unliked s) in
  users s' = users s /\ posts s' = posts s /\ comments s' = comments s.
Proof.
  unfold toggle. destruct (find _ (likes s)); simpl; [auto|].
  unfold Like_create. destruct (exists_ _ _); simpl; auto.
Qed.

Lemma toggle_new_like uid t tid now liked unliked s l :
  In l (likes (snd (toggle uid t tid now liked unliked s))) ->
  ~ In l (likes s) ->
  like_user l = uid /\ targetType l = t /\ targetId l = tid.
Proof.
  unfold toggle. destruct (find _ (likes s)) as [e|]; simpl.
  - intros Hin Hnot. apply findByIdAndDelete_incl in Hin. contradiction.
  - unfold Like_create. destruct (exists_ _ _); simpl; [contradiction|].
    intros Hin Hnot. apply in_app_or in Hin.
    destruct Hin as [Hin|[<-|[]]]; [contradiction|]. simpl. auto.
Qed.

Lemma like_of_likes_of uid t tid l :
  like_of uid t tid l = true -> likes_of t tid l = true.
Proof. unfold like_of. intros Hl. apply andb_prop in Hl. tauto. Qed.

Lemma like_of_fresh uid t tid now n :
  like_of uid t tid (mkLike n uid t tid now now) = true.
Proof.
  unfold like_of, likes_of. simpl. rewrite !Nat.eqb_refl.
  destruct t; reflexivity.
Qed.

(** The toggle on a pair without a like adds one. *)
Lemma toggle_absent uid t tid now liked unliked s :
  find (like_of uid t tid) (likes s) = None ->
  toggle uid t tid now liked unliked s =
  (ok liked
     (LikeData true (countDocuments (likes_of t tid) (likes s) + 1)),
   fresh (set_likes (likes s ++ [mkLike (next_id s) uid t tid now now]) s)).
Proof.
  intros Hfind. unfold toggle, Like_create, exists_.
  rewrite Hfind, (find_none_existsb _ _ Hfind). simpl.
  rewrite countDocuments_app. unfold countDocuments at 2. simpl.
  rewrite (like_of_likes_of uid t tid _ (like_of_fresh uid t tid now (next_id s))).
  reflexivity.
Qed.

(** Liking and then unliking, on a store where the pair has no like. *)
Lemma toggle_twice uid t tid now1 now2 liked unliked s :
  ids_below (next_id s) (likes s) ->
  exists_ (like_of uid t tid) (likes s) = false ->
  let n := countDocuments (likes_of t tid) (likes s) in
  let r1 := toggle uid t tid now1 liked unliked s in
  let r2 := toggle uid t tid now2 liked unliked (snd r1) in
  fst r1 = ok liked (LikeData true (n + 1)) /\
  fst r2 = ok unliked (LikeData false n) /\
  likes (snd r2) = likes s.
Proof.
  intros Hids Hno. unfold exists_ in Hno.
  assert (Hfind : find (like_of uid t tid) (likes s) = None).
  { destruct (find _ (likes s)) as [l|] eqn:E; [|reflexivity].
    apply find_some in E. destruct E as [Hin Hl].
    assert (existsb (like_of uid t tid) (likes s) = true)
      by (apply existsb_exists; eauto).
    congruence. }
  set (l := mkLike (next_id s) uid t tid now1 now1).
  pose proof (toggle_absent uid t tid now1 liked unliked s Hfind) as H1.
  fold l in H1.
  simpl. rewrite H1. simpl. split; [reflexivity|].
  unfold toggle. simpl. rewrite (find_app_none _ _ _ Hfind). simpl.
  assert (Hl : like_of uid t tid l = true) by apply like_of_fresh.
  rewrite Hl. simpl.
  assert (Hdel : findByIdAndDelete (next_id s) (likes s ++ [l]) = likes s).
  { refine (findByIdAndDelete_last (likes s) l _).
    intros e He. apply (ids_below_fresh (next_id s) (likes s) e Hids He). }
  rewrite Hdel. auto.
Qed.

(** C1 (as the code has it): a like request first looks its target up by
    id.  When the id resolves to no stored Post (on the post route) or
    Comment (on the comment route), the answer is 404 and the store is left
    as it was; hence a Like that the request adds always references a
    target that is stored, and carries the requester, the route's target
    type and the given id. *)
Theorem like_target_checked (t : TargetType) (uid id : ObjectId) (now : Z)
    (s : Store) :
  (target_stored t id s = false ->
   status (fst (like_route t uid id now s)) = 404 /\
   snd (like_route t uid id now s) = s) /\
  (forall l, In l (likes (snd (like_route t uid id now s))) ->
             ~ In l (likes s) ->
             target_stored t id s = true /\
             like_user l = uid /\ targetType l = t /\ targetId l = id).
Proof.
  split; [apply like_route_missing|].
  intros l Hin Hnew. destruct (target_stored t id s) eqn:Et.
  - split; [reflexivity|].
    rewrite (like_route_stored t uid id now s Et) in Hin.
    eapply toggle_new_like; eauto.
  - destruct (like_route_missing t uid id now s Et) as [_ Hs].
    rewrite Hs in Hin. contradiction.
Qed.

Lemma like_target_checked_witness :
  target_stored TPost 7 thread_store = false /\
  status (fst (like_route TPost 2 7 20 thread_store)) = 404 /\
  snd (like_route TPost 2 7 20 thread_store) = thread_store.
Proof.
  split; [reflexivity|].
  apply (proj1 (like_target_checked TPost 2 7 20 thread_store)).
  reflexivity.
Defined.

(** C1 as stated fails: post 7 and comment 7 are not stored, and liking
    either answers 404 and creates no Like. *)
Lemma like_unknown_target_rejected :
  findById 7 (posts thread_store) = None /\
  findById 7 (comments thread_store) = None /\
  like_post 2 7 20%Z thread_store =
    (not_found "Post not found", thread_store) /\
  like_comment 2 7 20%Z thread_store =
    (not_found "Comment not found", thread_store) /\
  likes (snd (like_post 2 7 20%Z thread_store)) = [].
Proof. repeat split. Qed.


Lemma liked_store_reachable : reachable liked_store.
Proof. apply run_reachable. apply thread_store_reachable. Qed.


(** *** The unique index *)

Lemma like_of_key uid t tid l :
  like_of uid t tid l = true <-> like_key l = (uid, t, tid).
Proof.
  unfold like_of, likes_of, like_key. split.
  - intros Hl. apply andb_prop in Hl. destruct Hl as [Hu Hl].
    apply andb_prop in Hl. destruct Hl as [Ht Hi].
    apply Nat.eqb_eq in Hu, Hi.
    destruct (targetType l), t; try discriminate; congruence.
  - intros Hk. inversion Hk; subst. rewrite !Nat.eqb_refl.
    destruct (targetType l); reflexivity.
Qed.

Lemma count_pos_key uid t tid ls :
  0 < countDocuments (like_of uid t tid) ls ->
  In (uid, t, tid) (map like_key ls).
Proof.
  unfold countDocuments. intros Hpos.
  destruct (filter (like_of uid t tid) ls) as [|l rest] eqn:E;
    [simpl in Hpos; lia|].
  assert (Hin : In l (filter (like_of uid t tid) ls))
    by (rewrite E; left; reflexivity).
  apply filter_In in Hin. destruct Hin as [Hin Hl].
  apply like_of_key in Hl. rewrite <- Hl. apply in_map; assumption.
Qed.

Lemma key_count_pos l ls :
  In (like_key l) (map like_key ls) ->
  0 < countDocuments (like_of (like_user l) (targetType l) (targetId l)) ls.
Proof.
  intros Hin. apply in_map_iff in Hin. destruct Hin as [e [He Hin]].
  assert (Hf : In e (filter (like_of (like_user l) (targetType l)
                               (targetId l)) ls)).
  { apply filter_In. split; [assumption|]. apply like_of_key. exact He. }
  unfold countDocuments.
  destruct (filter _ ls); [contradiction | simpl; lia].
Qed.

(** The index holds exactly when no (user, targetType, targetId) has two
    Like documents. *)
Lemma unique_keys_count ls :
  NoDup (map like_key ls) <->
  forall uid t tid, countDocuments (like_of uid t tid) ls <= 1.
Proof.
  induction ls as [|l ls IH]; simpl.
  - split; [intros; cbv; lia | constructor].
  - split.
    + intros Hnd uid t tid. inversion Hnd as [|? ? Hnotin Hnd']; subst.
      unfold countDocuments. simpl.
      destruct (like_of uid t tid l) eqn:El; simpl.
      * destruct (Nat.eq_dec (countDocuments (like_of uid t tid) ls) 0)
          as [Hz|Hnz]; [unfold countDocuments in Hz; lia|].
        exfalso. apply Hnotin. apply like_of_key in El. rewrite El.
        apply count_pos_key. lia.
      * apply IH; assumption.
    + intros Hc. constructor.
      * intros Hin. apply key_count_pos in Hin.
        specialize (Hc (like_user l) (targetType l) (targetId l)).
        unfold countDocuments in Hc, Hin. simpl in Hc.
        assert (El : like_of (like_user l) (targetType l) (targetId l) l
                     = true) by (apply like_of_key; reflexivity).
        rewrite El in Hc. simpl in Hc. lia.
      * apply IH. intros uid t tid. specialize (Hc uid t tid).
        unfold countDocuments in Hc |- *. simpl in Hc.
        destruct (like_of uid t tid l); simpl in Hc; lia.
Qed.

Lemma toggle_likes_change uid t tid now liked unliked s :
  likes_change s (likes (snd (toggle uid t tid now liked unliked s))).
Proof.
  unfold toggle. destruct (find _ (likes s)); simpl; [apply likes_removed|].
  unfold Like_create. destruct (exists_ _ _) eqn:E; simpl;
    [apply likes_kept | apply likes_added; exact E].
Qed.

Lemma handle_likes_change uid now r s :
  likes_change s (likes (snd (handle uid now r s))).
Proof.
  destruct r; simpl; try kept.
  - unfold create_post. destruct (validatePost b) as [b' errors].
    destruct (negb (is_nil errors)); [kept|].
    destruct file as [[u|]|];
      destruct (match body_privacy b' with
                | Some p => Privacy_of_string p | None => Some Public end);
      try kept;
      unfold Post_create; destruct (_ || _); kept.
  - unfold update_post. destruct (validatePost b) as [b' errors].
    destruct (negb (is_nil errors)); [kept|].
    destruct (findById pid (posts s)) as [post|]; [|kept].
    destruct (negb (post_author post =? uid)); [kept|].
    destruct (match body_privacy b' with
              | Some "" | None => Some (privacy post)
              | Some p => Privacy_of_string p end); [|kept].
    destruct (_ || _); kept.
  - unfold delete_post.
    destruct (findById pid (posts s)) as [post|]; [|kept].
    destruct (negb (post_author post =? uid)); [kept|].
    simpl; unfold deleteMany; apply likes_filtered.
  - unfold like_post.
    destruct (findById pid (posts s)); [|kept].
    apply toggle_likes_change.
  - unfold create_comment. destruct (validateComment b) as [b' errors].
    destruct (negb (is_nil errors)); [kept|].
    destruct (body_postId b') as [postId|]; [|kept].
    destruct (findById postId (posts s)); [|kept].
    unfold Comment_create. destruct (_ || _); kept.
  - unfold reply_comment. destruct (validateComment b) as [b' errors].
    destruct (negb (is_nil errors)); [kept|].
    destruct (findById cid (comments s)) as [pc|]; [|kept].
    unfold Comment_create. destruct (_ || _); kept.
  - unfold like_comment.
    destruct (findById cid (comments s)); [|kept].
    apply toggle_likes_change.
  - unfold delete_comment.
    destruct (findById cid (comments s)) as [c|]; [|kept].
    destruct (negb (comment_author c =? uid)); [kept|].
    simpl; unfold deleteMany; apply likes_filtered.
Qed.

Lemma likes_change_unique s ls :
  likes_unique s -> likes_change s ls -> NoDup (map like_key ls).
Proof.
  unfold likes_unique. intros Hu Hc. destruct Hc as [|f|id|uid t tid now Hno].
  - assumption.
  - apply NoDup_map_filter; assumption.
  - apply (NoDup_map_delete like_key); assumption.
  - apply NoDup_map_append; [assumption|].
    intros e He Hk. unfold like_key at 2 in Hk. simpl in Hk.
    apply like_of_key in Hk.
    assert (existsb (like_of uid t tid) (likes s) = true)
      by (apply existsb_exists; eauto).
    unfold exists_ in Hno. congruence.
Qed.

Lemma handle_likes_unique uid now r s :
  likes_unique s -> likes_unique (snd (handle uid now r s)).
Proof.
  intros Hu. eapply likes_change_unique; [exact Hu|].
  apply handle_likes_change.
Qed.

Lemma reachable_likes_unique s : reachable s -> likes_unique s.
Proof.
  induction 1 as [s [_ [_ Hl]] | s uid now r _ IH].
  - unfold likes_unique. rewrite Hl. constructor.
  - apply handle_likes_unique; assumption.
Qed.

(** C9: in every reachable store no (user, targetType, targetId) has more
    than one Like, and every request -- the like toggles, the deletes, the
    creates, the reads -- keeps it so from any store where it holds. *)
Theorem like_unique_per_user_and_target :
  (forall s, reachable s ->
     forall uid t tid, countDocuments (like_of uid t tid) (likes s) <= 1) /\
  (forall uid now r s,
     (forall u t tid, countDocuments (like_of u t tid) (likes s) <= 1) ->
     forall u t tid,
       countDocuments (like_of u t tid)
         (likes (snd (handle uid now r s))) <= 1).
Proof.
  split.
  - intros s Hs. apply unique_keys_count. apply reachable_likes_unique, Hs.
  - intros uid now r s Hc. apply unique_keys_count.
    apply handle_likes_unique. apply unique_keys_count, Hc.
Qed.

Lemma like_unique_per_user_and_target_witness :
  countDocuments (like_of 1 TPost 100) (likes liked_store) <= 1 /\
  countDocuments (like_of 1 TPost 100)
    (likes (snd (handle 1 20 (LikePost 100) liked_store))) <= 1.
Proof.
  destruct like_unique_per_user_and_target as [Hreach Hstep].
  split.
  - apply Hreach. apply liked_store_reachable.
  - apply Hstep. apply Hreach. apply liked_store_reachable.
Defined.

(** *** Unliking and liking again *)

Lemma find_split {A : Type} (f : A -> bool) (l : list A) (x : A) :
  find f l = Some x ->
  exists l1 l2,
    l = l1 ++ x :: l2 /\ f x = true /\ forall y, In y l1 -> f y = false.
Proof.
  induction l as [|a l IH]; simpl; [discriminate|].
  destruct (f a) eqn:Ea.
  - intros Hx. inversion Hx; subst. exists [], l. simpl. tauto.
  - intros Hx. destruct (IH Hx) as [l1 [l2 [-> [Hfx Hl1]]]].
    exists (a :: l1), l2. simpl. repeat split; [assumption|].
    intros y [<-|Hy]; auto.
Qed.

Lemma findByIdAndDelete_middle (l1 l2 : list Like) (l : Like) :
  NoDup (map like_id (l1 ++ l :: l2)) ->
  findByIdAndDelete (like_id l) (l1 ++ l :: l2) = l1 ++ l2.
Proof.
  induction l1 as [|a l1 IH]; simpl; intros Hnd.
  - change (doc_id l) with (like_id l). rewrite Nat.eqb_refl. reflexivity.
  - inversion Hnd as [|? ? Hnotin Hnd']; subst.
    change (doc_id a) with (like_id a).
    destruct (like_id a =? like_id l) eqn:E.
    + apply Nat.eqb_eq in E. exfalso. apply Hnotin. rewrite E.
      rewrite map_app. apply in_or_app. right. left. reflexivity.
    + f_equal. apply IH. assumption.
Qed.

(** X24: on a target that the user already likes, two requests in a row
    answer isLiked = false with one like less, then isLiked = true with the
    count from before; the pair is liked again, by a new Like document. *)
Lemma unlike_then_like (t : TargetType) (uid id : ObjectId) (now1 now2 : Z)
    (s : Store) (l : Like) :
  well_formed s -> likes_unique s ->
  target_stored t id s = true ->
  find (like_of uid t id) (likes s) = Some l ->
  let n := countDocuments (likes_of t id) (likes s) in
  let r1 := like_route t uid id now1 s in
  let r2 := like_route t uid id now2 (snd r1) in
  data (fst r1) = LikeData false (n - 1) /\
  data (fst r2) = LikeData true n /\
  Permutation (map like_key (likes (snd r2))) (map like_key (likes s)).
Proof.
  intros Hwf Hu Ht Hf. cbv zeta.
  destruct (find_split _ _ _ Hf) as [l1 [l2 [Hl [Hlk Hl1]]]].
  pose proof (wf_likes_nodup s Hwf) as Hids. unfold likes_unique in Hu.
  rewrite Hl in Hids, Hu.
  assert (Hdel : findByIdAndDelete (like_id l) (likes s) = l1 ++ l2)
    by (rewrite Hl; apply findByIdAndDelete_middle; assumption).
  assert (Hkey : like_key l = (uid, t, id)) by (apply like_of_key; assumption).
  assert (Hnone : forall e, In e (l1 ++ l2) -> like_of uid t id e = false).
  { intros e He. destruct (like_of uid t id e) eqn:Ee; [|reflexivity].
    exfalso. rewrite map_app in Hu. simpl in Hu.
    apply NoDup_remove_2 in Hu. apply Hu. rewrite <- map_app.
    apply like_of_key in Ee. rewrite Hkey, <- Ee. apply in_map; assumption. }
  assert (Hfind : find (like_of uid t id) (l1 ++ l2) = None).
  { destruct (find (like_of uid t id) (l1 ++ l2)) as [e|] eqn:E;
      [|reflexivity].
    apply find_some in E. destruct E as [He Hm].
    rewrite (Hnone e He) in Hm. discriminate. }
  assert (Hcount : countDocuments (likes_of t id) (likes s) =
                   S (countDocuments (likes_of t id) (l1 ++ l2))).
  { rewrite Hl. unfold countDocuments. rewrite !filter_app. simpl.
    rewrite (like_of_likes_of _ _ _ _ Hlk). rewrite !length_app. simpl. lia. }
  assert (H1 : toggle uid t id now1 (liked_message t) (unliked_message t) s =
               (ok (unliked_message t)
                  (LikeData false (countDocuments (likes_of t id) (l1 ++ l2))),
                set_likes (l1 ++ l2) s)).
  { unfold toggle. rewrite Hf. simpl. rewrite Hdel. reflexivity. }
  rewrite (like_route_stored t uid id now1 s Ht), H1. simpl.
  assert (Ht1 : target_stored t id (set_likes (l1 ++ l2) s) = true)
    by (destruct t; exact Ht).
  rewrite (like_route_stored t uid id now2 _ Ht1).
  rewrite (toggle_absent uid t id now2 _ _ (set_likes (l1 ++ l2) s) Hfind).
  simpl. rewrite Hcount.
  split; [f_equal; lia|]. split; [f_equal; lia|].
  rewrite Hl, !map_app. simpl.
  change (like_key (mkLike (next_id s) uid t id now2 now2)) with (uid, t, id).
  rewrite Hkey. rewrite <- app_assoc.
  apply Permutation_app_head. symmetry. apply Permutation_cons_append.
Qed.

(** ** Replies *)

Lemma Comment_create_valid t post author par now s :
  (String.length (trim t) =? 0) || (1000 <? String.length (trim t)) = false ->
  Comment_create (trim t) post author par now s =
  Some (mkComment (next_id s) (trim t) post author par now now,
        fresh (set_comments
                 (comments s ++
                  [mkComment (next_id s) (trim t) post author par now now])
                 s)).
Proof.
  intros Hv. unfold Comment_create. rewrite trim_idempotent, Hv. reflexivity.
Qed.

(** A reply with a valid text to a stored comment is created, whatever the
    parent's own [parent] is. *)
Lemma reply_comment_created uid cid now b s pc :
  snd (validateComment b) = [] ->
  findById cid (comments s) = Some pc ->
  let r := mkComment (next_id s) (trim (to_string (body_text b)))
             (comment_post pc) uid (Some cid) now now in
  reply_comment uid cid now b s =
  (created "Reply created successfully"
     (CommentData r (populate (users s) uid)),
   fresh (set_comments (comments s ++ [r]) s)).
Proof.
  intros Hv Hf. destruct (validateComment_passes b Hv) as [Hb Hlen].
  unfold reply_comment.
  destruct (validateComment b) as [b' errors]. simpl in Hv, Hb. subst.
  cbn [is_nil negb]. rewrite Hf. cbn [body_text to_string].
  rewrite (Comment_create_valid _ _ _ _ _ _ Hlen). reflexivity.
Qed.

Lemma reply_comment_status uid cid now b s :
  status (fst (reply_comment uid cid now b s)) = 201 ->
  snd (validateComment b) = [] /\
  exists pc, findById cid (comments s) = Some pc.
Proof.
  unfold reply_comment. destruct (validateComment b) as [b' errors]. simpl.
  destruct errors; simpl; [|discriminate].
  destruct (findById cid (comments s)) as [pc|]; simpl; [|discriminate].
  eauto.
Qed.




(** ** Ownership *)

(** C3 (as the code has it): on a stored post or comment whose author is
    not the requester, a delete is answered 403 and so is an update whose
    body passes validation; an update whose body fails validation is
    answered 400 with the violations, before the post is even read.  The
    store is unchanged in every case. *)
Theorem non_author_rejected (uid : ObjectId) (s : Store) :
  (forall pid p,
     findById pid (posts s) = Some p -> post_author p <> uid ->
     delete_post uid pid s =
       (forbidden "You are not authorized to delete this post", s) /\
     forall now b,
       update_post uid pid now b s =
         (if is_nil (snd (validatePost b))
          then forbidden "You are not authorized to update this post"
          else bad_request (snd (validatePost b)), s)) /\
  (forall cid c,
     findById cid (comments s) = Some c -> comment_author c <> uid ->
     delete_comment uid cid s =
       (forbidden "You are not authorized to delete this comment", s)).
Proof.
  split.
  - intros pid p Hf Ha. apply Nat.eqb_neq in Ha. split.
    + unfold delete_post. rewrite Hf, Ha. reflexivity.
    + intros now b. unfold update_post.
      destruct (validatePost b) as [b' errors]. simpl.
      destruct errors; simpl; [|reflexivity]. rewrite Hf, Ha. reflexivity.
  - intros cid c Hf Ha. apply Nat.eqb_neq in Ha.
    unfold delete_comment. rewrite Hf, Ha. reflexivity.
Qed.

Lemma non_author_rejected_witness :
  findById 100 (posts thread_store) =
    Some (mkPost 100 "hello" None Private 1 10 10) /\
  1 <> 2 /\
  status (fst (delete_post 2 100 thread_store)) = 403 /\
  status (fst (update_post 2 100 20 (mkPostBody (Some "edited") None)
                 thread_store)) = 403 /\
  findById 101 (comments thread_store) =
    Some (mkComment 101 "first" 100 2 None 11 11) /\
  status (fst (delete_comment 1 101 thread_store)) = 403.
Proof.
  split; [reflexivity|]. split; [discriminate|].
  destruct (proj1 (non_author_rejected 2 thread_store) 100
              (mkPost 100 "hello" None Private 1 10 10) eq_refl)
    as [Hd Hu]; [discriminate|].
  split; [rewrite Hd; reflexivity|].
  split; [rewrite Hu; reflexivity|].
  split; [reflexivity|].
  rewrite (proj2 (non_author_rejected 1 thread_store) 101
             (mkComment 101 "first" 100 2 None 11 11) eq_refl);
    [reflexivity | discriminate].
Defined.

(** C3 as stated fails: Bob is not the author of post 100, and his update
    with a blank content is answered 400, not 403. *)
Lemma update_blank_by_non_author :
  findById 100 (posts thread_store) =
    Some (mkPost 100 "hello" None Private 1 10 10) /\
  update_post 2 100 20%Z (mkPostBody (Some "   ") None) thread_store =
    (bad_request [mkFieldError "content" "Post content is required"],
     thread_store) /\
  status (fst (update_post 2 100 20%Z (mkPostBody (Some "   ") None)
                 thread_store)) = 400.
Proof. repeat split. Qed.

(** ** Deleting *)

(** C7: when the author deletes a stored post, the request succeeds; the
    posts that remain are the others, the likes that remain are those not
    on this post, and comments (with the likes on them) and users are as
    before. *)
Theorem delete_post_effect (uid pid : ObjectId) (s : Store) (p : Post) :
  well_formed s ->
  findById pid (posts s) = Some p ->
  post_author p = uid ->
  exists s',
    delete_post uid pid s = (ok "Post deleted successfully" NoData, s') /\
    posts s' = filter (fun q => negb (post_id q =? pid)) (posts s) /\
    likes s' = filter (fun l => negb (likes_of TPost pid l)) (likes s) /\
    comments s' = comments s /\
    users s' = users s /\
    (forall l, In l (likes s) -> targetType l = TComment -> In l (likes s')).
Proof.
  intros Hwf Hf Ha. unfold delete_post. rewrite Hf.
  apply Nat.eqb_eq in Ha. rewrite Ha. simpl.
  eexists. split; [reflexivity|]. simpl.
  split; [apply (findByIdAndDelete_filter pid (posts s)), (wf_posts_nodup s Hwf)|].
  split; [reflexivity|]. split; [reflexivity|]. split; [reflexivity|].
  intros l Hin Ht. unfold deleteMany. apply filter_In. split; [assumption|].
  unfold likes_of. rewrite Ht. reflexivity.
Qed.

Lemma delete_post_effect_witness :
  well_formed busy_store /\
  findById 100 (posts busy_store) =
    Some (mkPost 100 "hello" None Private 1 10 10) /\
  exists s',
    delete_post 1 100 busy_store =
      (ok "Post deleted successfully" NoData, s') /\
    posts s' = [] /\
    likes s' = [mkLike 104 2 TComment 102 14 14; mkLike 105 1 TComment 101 15 15] /\
    comments s' = comments busy_store.
Proof.
  assert (Hwf : well_formed busy_store).
  { apply reachable_wf. apply run_reachable. apply liked_store_reachable. }
  split; [exact Hwf|]. split; [reflexivity|].
  destruct (delete_post_effect 1 100 busy_store
              (mkPost 100 "hello" None Private 1 10 10) Hwf eq_refl eq_refl)
    as [s' (Hd & Hp & Hl & Hc & _)].
  exists s'. split; [exact Hd|]. split; [exact Hp|]. split; [exact Hl|].
  exact Hc.
Defined.

(** C8: when the author deletes a stored comment, the request succeeds;
    the comments that remain are those that are neither the target nor
    have it as parent, and the likes that remain are those not on the
    target.  A like on a removed reply therefore stays, while the reply
    itself is gone. *)
Theorem delete_comment_effect (uid cid : ObjectId) (s : Store) (c : Comment) :
  findById cid (comments s) = Some c ->
  comment_author c = uid ->
  exists s',
    delete_comment uid cid s =
      (ok "Comment deleted successfully" NoData, s') /\
    comments s' =
      filter (fun d => negb ((comment_id d =? cid) || replies_of cid d))
        (comments s) /\
    likes s' = filter (fun l => negb (likes_of TComment cid l)) (likes s) /\
    posts s' = posts s /\
    users s' = users s /\
    (forall r l,
       In r (comments s) -> parent r = Some cid -> comment_id r <> cid ->
       In l (likes s) -> targetType l = TComment ->
       targetId l = comment_id r ->
       ~ In r (comments s') /\ In l (likes s')).
Proof.
  intros Hf Ha. unfold delete_comment. rewrite Hf.
  apply Nat.eqb_eq in Ha. rewrite Ha. simpl.
  eexists. split; [reflexivity|]. simpl.
  split; [reflexivity|]. split; [reflexivity|].
  split; [reflexivity|]. split; [reflexivity|].
  intros r l Hr Hp Hne Hl Ht Hi. unfold deleteMany. split.
  - intros Hin. apply filter_In in Hin. destruct Hin as [_ Hk].
    unfold comment_or_reply, replies_of in Hk. rewrite Hp in Hk.
    rewrite Nat.eqb_refl, orb_true_r in Hk. discriminate.
  - apply filter_In. split; [assumption|].
    unfold likes_of. rewrite Ht, Hi. simpl.
    apply Nat.eqb_neq in Hne. rewrite Hne. reflexivity.
Qed.

Lemma delete_comment_effect_witness :
  findById 101 (comments busy_store) =
    Some (mkComment 101 "first" 100 2 None 11 11) /\
  exists s',
    delete_comment 2 101 busy_store =
      (ok "Comment deleted successfully" NoData, s') /\
    comments s' = [] /\
    likes s' = [mkLike 103 1 TPost 100 13 13; mkLike 104 2 TComment 102 14 14].
Proof.
  split; [reflexivity|].
  destruct (delete_comment_effect 2 101 busy_store
              (mkComment 101 "first" 100 2 None 11 11) eq_refl eq_refl)
    as [s' (Hd & Hc & Hl & _)].
  exists s'. split; [exact Hd|]. split; [exact Hc | exact Hl].
Defined.

(** ** The feed *)

Lemma feed_filter_spec uid p :
  feed_filter uid p = true <-> privacy p = Public \/ post_author p = uid.
Proof.
  unfold feed_filter. rewrite orb_true_iff, Nat.eqb_eq.
  destruct (privacy p); simpl; intuition discriminate.
Qed.

Lemma post_view_post uid s l : map pv_post (map (post_view uid s) l) = l.
Proof.
  rewrite map_map. simpl. apply map_id.
Qed.

Lemma StronglySorted_impl {A : Type} (R R' : A -> A -> Prop) (l : list A) :
  (forall a b, R a b -> R' a b) -> StronglySorted R l -> StronglySorted R' l.
Proof.
  intros HR. induction 1 as [|a l _ IH Hall]; constructor; [assumption|].
  eapply Forall_impl; [|exact Hall]. intros; apply HR; assumption.
Qed.

Lemma newest_first_sorted l : StronglySorted not_older (sort_by newest_first l).
Proof.
  apply StronglySorted_impl with (R := fun a b => newest_first a b = true).
  - unfold newest_first, not_older. intros a b Hab.
    apply Z.leb_le; assumption.
  - apply sort_by_sorted; unfold newest_first.
    + intros x y. rewrite !Z.leb_le. lia.
    + intros x y z. rewrite !Z.leb_le. lia.
Qed.

Lemma oldest_first_sorted l : StronglySorted not_newer (sort_by oldest_first l).
Proof.
  apply StronglySorted_impl with (R := fun a b => oldest_first a b = true).
  - unfold oldest_first, not_newer. intros a b Hab.
    apply Z.leb_le; assumption.
  - apply sort_by_sorted; unfold oldest_first.
    + intros x y. rewrite !Z.leb_le. lia.
    + intros x y z. rewrite !Z.leb_le. lia.
Qed.

Lemma parse_or_pos (n d : Z) : (0 < n)%Z -> parse_or (Some n) d = n.
Proof. destruct n; simpl; [lia | reflexivity | reflexivity]. Qed.

(** The posts of a feed response are a page of the sorted matches. *)
Lemma feed_posts_page uid qpage qlimit s :
  let skip := ((parse_or qpage 1 - 1) * parse_or qlimit 10)%Z in
  feed_posts (get_feed uid qpage qlimit s) =
  if (skip <? 0)%Z then []
  else feed_page uid skip (parse_or qlimit 10) s.
Proof.
  unfold get_feed, feed_posts. simpl.
  destruct (_ <? 0)%Z; simpl; [reflexivity | apply post_view_post].
Qed.

Lemma in_feed_page uid skip lim s p :
  In p (feed_page uid skip lim s) ->
  In p (filter (feed_filter uid) (posts s)).
Proof.
  unfold feed_page. intros Hin.
  apply sort_by_in with (le := newest_first).
  assert (Hs : In p (skipn (Z.to_nat skip)
                       (sort_by newest_first
                          (filter (feed_filter uid) (posts s))))).
  { rewrite <- (firstn_skipn (Z.to_nat (Z.abs lim)) (skipn _ _)).
    apply in_or_app. left. exact Hin. }
  rewrite <- (firstn_skipn (Z.to_nat skip) (sort_by _ _)).
  apply in_or_app. right. exact Hs.
Qed.

(** C5: whatever the page, the feed returns posts of the store that are
    public or the requester's own -- never somebody else's private post --
    ordered newest first; it is a page of the list of all such posts in
    that order, and the first page with a limit above the number of posts
    returns exactly these posts. *)
Theorem feed_visible_newest_first (uid : ObjectId) (qpage qlimit : option Z)
    (s : Store) :
  let ps := feed_posts (get_feed uid qpage qlimit s) in
  let everything :=
    feed_posts (get_feed uid (Some 1%Z)
                  (Some (Z.of_nat (S (List.length (posts s))))) s) in
  (forall p, In p ps ->
     In p (posts s) /\ (privacy p = Public \/ post_author p = uid)) /\
  (forall p, In p ps -> privacy p = Private -> post_author p = uid) /\
  StronglySorted not_older ps /\
  (exists skip lim, ps = firstn lim (skipn skip everything)) /\
  StronglySorted not_older everything /\
  Permutation everything (filter (feed_filter uid) (posts s)) /\
  (forall p, In p everything <->
     In p (posts s) /\ (privacy p = Public \/ post_author p = uid)).
Proof.
  set (matches := filter (feed_filter uid) (posts s)).
  assert (Hall : feed_posts (get_feed uid (Some 1%Z)
                   (Some (Z.of_nat (S (List.length (posts s))))) s) =
                 sort_by newest_first matches).
  { rewrite feed_posts_page. cbv zeta.
    set (L := Z.of_nat (S (List.length (posts s)))).
    assert (HL : (0 < L)%Z) by (unfold L; lia).
    rewrite (parse_or_pos L 10 HL).
    change (parse_or (Some 1%Z) 1) with 1%Z.
    replace ((1 - 1) * L)%Z with 0%Z by lia.
    change (0 <? 0)%Z with false. cbv iota. unfold feed_page.
    rewrite Z.abs_eq by lia. unfold L. rewrite Nat2Z.id.
    change (Z.to_nat 0) with 0. cbn [skipn]. fold matches.
    apply firstn_all2.
    rewrite (Permutation_length (sort_by_perm newest_first matches)).
    unfold matches. pose proof (filter_length_le (feed_filter uid) (posts s)).
    lia. }
  cbv zeta. rewrite Hall. clear Hall. rewrite feed_posts_page. cbv zeta.
  set (skip := ((parse_or qpage 1 - 1) * parse_or qlimit 10)%Z).
  assert (Hvis : forall p,
             In p (if (skip <? 0)%Z then []
                   else feed_page uid skip (parse_or qlimit 10) s) ->
             In p (posts s) /\ (privacy p = Public \/ post_author p = uid)).
  { intros p Hin. destruct (skip <? 0)%Z; [contradiction|].
    apply in_feed_page in Hin. apply filter_In in Hin.
    destruct Hin as [Hin Hf]. apply feed_filter_spec in Hf. auto. }
  split; [exact Hvis|]. split.
  { intros p Hin Hpriv. destruct (Hvis p Hin) as [_ [Hpub|Hown]];
      [congruence | assumption]. }
  split.
  { destruct (skip <? 0)%Z; [constructor|]. unfold feed_page.
    apply StronglySorted_firstn, StronglySorted_skipn, newest_first_sorted. }
  split.
  { destruct (skip <? 0)%Z; [exists 0, 0; reflexivity|].
    exists (Z.to_nat skip), (Z.to_nat (Z.abs (parse_or qlimit 10))).
    reflexivity. }
  split; [apply newest_first_sorted|].
  split; [apply sort_by_perm|].
  intros p. rewrite sort_by_in. unfold matches. rewrite filter_In.
  rewrite feed_filter_spec. tauto.
Qed.

Lemma feed_visible_newest_first_witness :
  In (mkPost 100 "hello" None Private 1 10 10) (posts thread_store) /\
  feed_posts (get_feed 2 None None thread_store) = [] /\
  feed_posts (get_feed 1 None None thread_store) =
    [mkPost 100 "hello" None Private 1 10 10] /\
  post_author (mkPost 100 "hello" None Private 1 10 10) = 1.
Proof.
  split; [left; reflexivity|]. split; [reflexivity|].
  split; [reflexivity|].
  apply (proj1 (proj2 (feed_visible_newest_first 1 None None thread_store))
           (mkPost 100 "hello" None Private 1 10 10));
    [left; reflexivity | reflexivity].
Defined.

(** *** Pagination *)

(** [ceil_div n l] is the least number of pages of [l] that hold [n]. *)
Lemma ceil_div_spec (n l : Z) :
  (0 < l)%Z ->
  ((ceil_div n l - 1) * l < n <= ceil_div n l * l)%Z.
Proof.
  intros Hl. unfold ceil_div.
  pose proof (Z.div_mod (- n) l ltac:(lia)) as Hdm.
  pose proof (Z.mod_pos_bound (- n) l Hl) as Hb.
  nia.
Qed.

Lemma length_feed_page uid skip lim s :
  (0 <= skip)%Z -> (0 <= lim)%Z ->
  List.length (feed_page uid skip lim s) =
  Nat.min (Z.to_nat lim)
    (countDocuments (feed_filter uid) (posts s) - Z.to_nat skip).
Proof.
  intros Hs Hl. unfold feed_page, countDocuments.
  rewrite Z.abs_eq by assumption.
  rewrite length_firstn, length_skipn.
  rewrite (Permutation_length (sort_by_perm newest_first _)). reflexivity.
Qed.



(** ** Listing comments *)

Lemma comment_view_comment uid s l :
  map cv_comment (map (comment_view uid s) l) = l.
Proof.
  rewrite map_map. simpl. apply map_id.
Qed.

Lemma top_level_of_spec pid c :
  top_level_of pid c = true <-> comment_post c = pid /\ parent c = None.
Proof.
  unfold top_level_of. rewrite andb_true_iff, Nat.eqb_eq.
  destruct (parent c); intuition discriminate.
Qed.

(** C10: listing the comments of any post id is answered 200 with the
    top-level comments stored under that id, oldest first -- none when
    there are none.  The Post collection is not consulted, so an id that
    resolves to no post is listed like any other and never answered 404. *)
Theorem comments_listed_for_any_post (uid postId : ObjectId) (s : Store) :
  let r := get_comments uid postId s in
  status r = 200 /\ success r = true /\
  listed_comments r =
    sort_by oldest_first (filter (top_level_of postId) (comments s)) /\
  (forall c, In c (listed_comments r) <->
     In c (comments s) /\ comment_post c = postId /\ parent c = None) /\
  StronglySorted not_newer (listed_comments r) /\
  (forall ps, get_comments uid postId (set_posts ps s) = r).
Proof.
  cbv zeta. unfold get_comments, listed_comments. simpl.
  rewrite comment_view_comment.
  split; [reflexivity|]. split; [reflexivity|]. split; [reflexivity|].
  split.
  { intros c. rewrite sort_by_in, filter_In, top_level_of_spec. tauto. }
  split; [apply oldest_first_sorted | reflexivity].
Qed.

(** Post 7 is not stored and has no comment: the listing is empty, and it
    is a success. *)
Example comments_of_unknown_post :
  findById 7 (posts thread_store) = None /\
  get_comments 1 7 thread_store = ok_data (CommentsData []).
Proof. split; reflexivity. Qed.

(** * Further properties of the routes *)

(** ** Creating and updating posts *)

Lemma validatePost_passes (b : PostBody) :
  snd (validatePost b) = [] ->
  fst (validatePost b) =
    mkPostBody (Some (trim (to_string (body_content b)))) (body_privacy b) /\
  (String.length (trim (to_string (body_content b))) =? 0)
  || (5000 <? String.length (trim (to_string (body_content b)))) = false /\
  (body_privacy b = None \/ body_privacy b = Some "public" \/
   body_privacy b = Some "private").
Proof.
  unfold validatePost; simpl. intros He. split; [reflexivity|].
  destruct (String.length _ =? 0); [discriminate|].
  destruct (5000 <? String.length _); [discriminate|].
  split; [reflexivity|]. cbn [app] in He.
  destruct (body_privacy b) as [p|]; [|auto]. right.
  unfold isIn, existsb in He.
  destruct (String.eqb p "public") eqn:E1;
    [apply String.eqb_eq in E1; subst p; left; reflexivity|].
  destruct (String.eqb p "private") eqn:E2;
    [apply String.eqb_eq in E2; subst p; right; reflexivity|].
  discriminate.
Qed.

Lemma Post_create_valid c img pr author now s :
  (String.length (trim c) =? 0) || (5000 <? String.length (trim c)) = false ->
  Post_create (trim c) img pr author now s =
  Some (mkPost (next_id s) (trim c) img pr author now now,
        fresh (set_posts
                 (posts s ++ [mkPost (next_id s) (trim c) img pr author now now])
                 s)).
Proof.
  intros Hv. unfold Post_create. rewrite trim_idempotent, Hv. reflexivity.
Qed.

Lemma findById_append_fresh {A : Type} `{Document A} (c : list A) (d : A) :
  ids_below (doc_id d) c -> findById (doc_id d) (c ++ [d]) = Some d.
Proof.
  intros Hc. unfold findById. rewrite find_app_none.
  - simpl. rewrite Nat.eqb_refl. reflexivity.
  - destruct (find _ c) as [e|] eqn:E; [|reflexivity].
    apply find_some in E. destruct E as [He Hid]. apply Nat.eqb_eq in Hid.
    exfalso. apply (ids_below_fresh (doc_id d) c e Hc He Hid).
Qed.

(** A valid body with no failed upload is stored. *)
Lemma create_post_created uid now b file s :
  snd (validatePost b) = [] ->
  file <> Some None ->
  create_post uid now b file s =
    (created "Post created successfully"
       (PostData (mkPost (next_id s) (trim (to_string (body_content b)))
                    (uploaded_image file) (requested_privacy b Public)
                    uid now now) (populate (users s) uid)),
     fresh (set_posts
              (posts s ++
               [mkPost (next_id s) (trim (to_string (body_content b)))
                  (uploaded_image file) (requested_privacy b Public)
                  uid now now]) s)).
Proof.
  intros Hv Hfile.
  destruct (validatePost_passes b Hv) as [Hb [Hlen Hpr]].
  unfold create_post, requested_privacy.
  destruct (validatePost b) as [b' errors]. simpl in Hv, Hb. subst.
  cbn [is_nil negb body_privacy body_content to_string].
  destruct file as [[u|]|]; [| congruence |];
    destruct Hpr as [-> | [-> | ->]];
    cbv [Privacy_of_string String.eqb Ascii.eqb Bool.eqb uploaded_image];
    rewrite (Post_create_valid _ _ _ _ _ _ Hlen); reflexivity.
Qed.



Lemma length_zero_empty (c : string) : String.length c = 0 <-> c = "".
Proof. destruct c; simpl; split; congruence. Qed.

(** The bodies that [validatePost] turns down. *)
Lemma validatePost_errors (b : PostBody) :
  snd (validatePost b) <> [] <->
  (trim (to_string (body_content b)) = "" \/
   5000 < String.length (trim (to_string (body_content b))) \/
   exists p, body_privacy b = Some p /\ p <> "public" /\ p <> "private").
Proof.
  unfold validatePost. cbn [snd].
  set (c := trim (to_string (body_content b))).
  destruct (Nat.eqb_spec (String.length c) 0) as [Hz|Hz].
  { split; [|discriminate]. intros _. left. apply length_zero_empty, Hz. }
  destruct (Nat.ltb_spec 5000 (String.length c)) as [Hl|Hl].
  { split; [|discriminate]. intros _. right. left. exact Hl. }
  cbn [app]. rewrite length_zero_empty in Hz.
  destruct (body_privacy b) as [p|].
  - unfold isIn, existsb.
    destruct (String.eqb_spec p "public") as [Hp|Hp]; cbn [orb].
    + split; [congruence|]. intros [H|[H|[q [Hq [Hq1 _]]]]];
        [contradiction | lia | congruence].
    + destruct (String.eqb_spec p "private") as [Hq|Hq]; cbn [orb].
      * split; [congruence|]. intros [H|[H|[q [Hq0 [_ Hq2]]]]];
          [contradiction | lia | congruence].
      * split; [|discriminate]. intros _. right. right. exists p. auto.
  - split; [congruence|]. intros [H|[H|[q [Hq _]]]];
      [contradiction | lia | discriminate].
Qed.

Lemma create_post_status_400 uid now b file s :
  status (fst (create_post uid now b file s)) = 400 <->
  snd (validatePost b) <> [].
Proof.
  unfold create_post. destruct (validatePost b) as [b' errors]. cbn [snd].
  destruct errors as [|e errors]; cbn [is_nil negb].
  - split; [|congruence]. intros Hst. exfalso.
    destruct file as [[u|]|];
      destruct (match body_privacy b' with
                | Some p => Privacy_of_string p | None => Some Public end);
      try (simpl in Hst; discriminate);
      match type of Hst with
      | context [Post_create ?c ?i ?p ?a ?n ?s] =>
          destruct (Post_create c i p a n s) as [[q s']|];
            simpl in Hst; discriminate
      end.
  - split; [discriminate | reflexivity].
Qed.



Lemma findById_save {A : Type} `{Document A} (c : list A) (d e : A) :
  findById (doc_id d) c = Some e -> findById (doc_id d) (save d c) = Some d.
Proof.
  unfold findById, save. induction c as [|a c IH]; simpl; [discriminate|].
  destruct (doc_id a =? doc_id d) eqn:E.
  - intros _. rewrite Nat.eqb_refl. reflexivity.
  - rewrite E. exact IH.
Qed.

Lemma in_save_other {A : Type} `{Document A} (c : list A) (d q : A) :
  doc_id q <> doc_id d -> (In q (save d c) <-> In q c).
Proof.
  intros Hne. unfold save. rewrite in_map_iff. split.
  - intros [e [He Hin]]. destruct (doc_id e =? doc_id d); subst; tauto.
  - intros Hin. exists q. split; [|assumption].
    apply Nat.eqb_neq in Hne. rewrite Hne. reflexivity.
Qed.



(** X4: the checks come in a fixed order.  An update is validated before
    the post is looked up, so an invalid body is answered 400 even for a
    post that does not exist; with a valid body a missing post is answered
    404.  Delete and reply have no such step before the lookup: a missing
    post or comment is answered 404, and a reply with an invalid text is
    answered 400 whether or not its parent exists.  The store is unchanged
    in all these cases. *)
Theorem errors_in_order (uid : ObjectId) (now : Z) (s : Store) :
  (forall pid b,
     snd (validatePost b) <> [] ->
     update_post uid pid now b s = (bad_request (snd (validatePost b)), s)) /\
  (forall pid b,
     snd (validatePost b) = [] -> findById pid (posts s) = None ->
     update_post uid pid now b s = (not_found "Post not found", s)) /\
  (forall pid,
     findById pid (posts s) = None ->
     delete_post uid pid s = (not_found "Post not found", s)) /\
  (forall cid b,
     snd (validateComment b) <> [] ->
     reply_comment uid cid now b s =
       (bad_request (snd (validateComment b)), s)) /\
  (forall cid b,
     snd (validateComment b) = [] -> findById cid (comments s) = None ->
     reply_comment uid cid now b s =
       (not_found "Parent comment not found", s)) /\
  (forall cid,
     findById cid (comments s) = None ->
     delete_comment uid cid s = (not_found "Comment not found", s)).
Proof.
  repeat split.
  - intros pid b Hv. unfold update_post.
    destruct (validatePost b) as [b' errors]. cbn [snd] in *.
    destruct errors; [congruence | reflexivity].
  - intros pid b Hv Hf. unfold update_post.
    destruct (validatePost b) as [b' errors]. cbn [snd] in *. subst.
    cbn [is_nil negb]. rewrite Hf. reflexivity.
  - intros pid Hf. unfold delete_post. rewrite Hf. reflexivity.
  - intros cid b Hv. unfold reply_comment.
    destruct (validateComment b) as [b' errors]. cbn [snd] in *.
    destruct errors; [congruence | reflexivity].
  - intros cid b Hv Hf. unfold reply_comment.
    destruct (validateComment b) as [b' errors]. cbn [snd] in *. subst.
    cbn [is_nil negb]. rewrite Hf. reflexivity.
  - intros cid Hf. unfold delete_comment. rewrite Hf. reflexivity.
Qed.

Lemma errors_in_order_witness :
  update_post 2 7 20 (mkPostBody (Some " ") None) thread_store =
    (bad_request [mkFieldError "content" "Post content is required"],
     thread_store) /\
  update_post 2 7 20 (mkPostBody (Some "x") None) thread_store =
    (not_found "Post not found", thread_store).
Proof.
  destruct (errors_in_order 2 20 thread_store) as (H400 & H404 & _).
  split.
  - apply (H400 7 (mkPostBody (Some " ") None)). discriminate.
  - apply (H404 7 (mkPostBody (Some "x") None)); reflexivity.
Defined.

(** ** What a request can change *)

Lemma toggle_posts_comments uid t tid now liked unliked s :
  posts (snd (toggle uid t tid now liked unliked s)) = posts s /\
  comments (snd (toggle uid t tid now liked unliked s)) = comments s.
Proof.
  destruct (toggle_frame uid t tid now liked unliked s) as [_ [Hp Hc]].
  auto.
Qed.

Lemma handle_posts_change uid now r s :
  posts_change s (posts (snd (handle uid now r s))).
Proof.
  destruct r; simpl; try (simpl; apply posts_kept).
  - unfold create_post. destruct (validatePost b) as [b' errors].
    destruct (negb (is_nil errors)); [simpl; apply posts_kept|].
    destruct file as [[u|]|];
      destruct (match body_privacy b' with
                | Some p => Privacy_of_string p | None => Some Public end);
      try (simpl; apply posts_kept);
      unfold Post_create; destruct (_ || _);
      simpl; first [simpl; apply posts_kept | apply posts_added].
  - unfold update_post. destruct (validatePost b) as [b' errors].
    destruct (negb (is_nil errors)); [simpl; apply posts_kept|].
    destruct (findById pid (posts s)) as [post|] eqn:Ef; [|simpl; apply posts_kept].
    destruct (negb (post_author post =? uid)); [simpl; apply posts_kept|].
    destruct (match body_privacy b' with
              | Some "" | None => Some (privacy post)
              | Some p => Privacy_of_string p end); [|simpl; apply posts_kept].
    destruct (_ || _); [simpl; apply posts_kept|].
    simpl. apply posts_saved. apply (findById_some _ _ _ Ef).
  - unfold delete_post.
    destruct (findById pid (posts s)) as [post|]; [|simpl; apply posts_kept].
    destruct (negb (post_author post =? uid)); [simpl; apply posts_kept|].
    simpl. apply posts_removed.
  - unfold like_post.
    destruct (findById pid (posts s)); [|simpl; apply posts_kept].
    rewrite (proj1 (toggle_posts_comments _ _ _ _ _ _ _)). simpl; apply posts_kept.
  - unfold create_comment. destruct (validateComment b) as [b' errors].
    destruct (negb (is_nil errors)); [simpl; apply posts_kept|].
    destruct (body_postId b') as [postId|]; [|simpl; apply posts_kept].
    destruct (findById postId (posts s)); [|simpl; apply posts_kept].
    unfold Comment_create. destruct (_ || _); simpl; apply posts_kept.
  - unfold reply_comment. destruct (validateComment b) as [b' errors].
    destruct (negb (is_nil errors)); [simpl; apply posts_kept|].
    destruct (findById cid (comments s)) as [pc|]; [|simpl; apply posts_kept].
    unfold Comment_create. destruct (_ || _); simpl; apply posts_kept.
  - unfold like_comment.
    destruct (findById cid (comments s)); [|simpl; apply posts_kept].
    rewrite (proj1 (toggle_posts_comments _ _ _ _ _ _ _)). simpl; apply posts_kept.
  - unfold delete_comment.
    destruct (findById cid (comments s)) as [c|]; [|simpl; apply posts_kept].
    destruct (negb (comment_author c =? uid)); simpl; apply posts_kept.
Qed.

Lemma handle_comments_change uid now r s :
  comments_change s (comments (snd (handle uid now r s))).
Proof.
  destruct r; simpl; try (simpl; apply comments_kept).
  - unfold create_post. destruct (validatePost b) as [b' errors].
    destruct (negb (is_nil errors)); [simpl; apply comments_kept|].
    destruct file as [[u|]|];
      destruct (match body_privacy b' with
                | Some p => Privacy_of_string p | None => Some Public end);
      try (simpl; apply comments_kept);
      unfold Post_create; destruct (_ || _); simpl; apply comments_kept.
  - unfold update_post. destruct (validatePost b) as [b' errors].
    destruct (negb (is_nil errors)); [simpl; apply comments_kept|].
    destruct (findById pid (posts s)) as [post|]; [|simpl; apply comments_kept].
    destruct (negb (post_author post =? uid)); [simpl; apply comments_kept|].
    destruct (match body_privacy b' with
              | Some "" | None => Some (privacy post)
              | Some p => Privacy_of_string p end); [|simpl; apply comments_kept].
    destruct (_ || _); simpl; apply comments_kept.
  - unfold delete_post.
    destruct (findById pid (posts s)) as [post|]; [|simpl; apply comments_kept].
    destruct (negb (post_author post =? uid)); simpl; apply comments_kept.
  - unfold like_post.
    destruct (findById pid (posts s)); [|simpl; apply comments_kept].
    rewrite (proj2 (toggle_posts_comments _ _ _ _ _ _ _)).
    simpl; apply comments_kept.
  - unfold create_comment. destruct (validateComment b) as [b' errors].
    destruct (negb (is_nil errors)); [simpl; apply comments_kept|].
    destruct (body_postId b') as [postId|]; [|simpl; apply comments_kept].
    destruct (findById postId (posts s)); [|simpl; apply comments_kept].
    unfold Comment_create. destruct (_ || _); [simpl; apply comments_kept|].
    simpl. apply comments_added. discriminate.
  - unfold reply_comment. destruct (validateComment b) as [b' errors].
    destruct (negb (is_nil errors)); [simpl; apply comments_kept|].
    destruct (findById cid (comments s)) as [pc|] eqn:Ef;
      [|simpl; apply comments_kept].
    unfold Comment_create. destruct (_ || _); [simpl; apply comments_kept|].
    simpl. apply comments_added. intros p Hp. inversion Hp; subst. eauto.
  - unfold like_comment.
    destruct (findById cid (comments s)); [|simpl; apply comments_kept].
    rewrite (proj2 (toggle_posts_comments _ _ _ _ _ _ _)).
    simpl; apply comments_kept.
  - unfold delete_comment.
    destruct (findById cid (comments s)) as [c|]; [|simpl; apply comments_kept].
    destruct (negb (comment_author c =? uid)); [simpl; apply comments_kept|].
    simpl. unfold deleteMany. apply comments_filtered.
Qed.

Lemma NoDup_map_in_eq {A B : Type} (key : A -> B) (l : list A) (a b : A) :
  NoDup (map key l) -> In a l -> In b l -> key a = key b -> a = b.
Proof.
  induction l as [|x l IH]; simpl; [tauto|].
  intros Hnd Ha Hb Hk. inversion Hnd as [|? ? Hnotin Hnd']; subst.
  destruct Ha as [<-|Ha], Hb as [<-|Hb]; auto.
  - exfalso. apply Hnotin. rewrite Hk. apply in_map; assumption.
  - exfalso. apply Hnotin. rewrite <- Hk. apply in_map; assumption.
Qed.

(** X5: no request changes who wrote a post, when it was created or which
    image it carries: a post found after a request under the id of a post
    stored before it has the same author, creation time and image. *)
Theorem post_identity_kept (uid : ObjectId) (now : Z) (r : Request)
    (s : Store) (p p' : Post) :
  well_formed s ->
  In p (posts s) ->
  In p' (posts (snd (handle uid now r s))) ->
  post_id p' = post_id p ->
  post_author p' = post_author p /\
  post_createdAt p' = post_createdAt p /\
  image p' = image p.
Proof.
  intros Hwf Hp Hp' Hid.
  pose proof (wf_posts_nodup s Hwf) as Hnd.
  assert (Hsame : In p' (posts s) -> p' = p).
  { intros Hin. apply (NoDup_map_in_eq post_id (posts s)); assumption. }
  destruct (handle_posts_change uid now r s)
    as [| c img pr author now' | post c pr updated Hpost | id].
  - rewrite (Hsame Hp'). auto.
  - apply in_app_or in Hp'. destruct Hp' as [Hin|[<-|[]]].
    + rewrite (Hsame Hin). auto.
    + exfalso. simpl in Hid.
      apply (ids_below_fresh (next_id s) (posts s) p (wf_posts s Hwf) Hp).
      symmetry. exact Hid.
  - unfold save in Hp'. apply in_map_iff in Hp'.
    destruct Hp' as [e [He Hin]].
    destruct (doc_id e =? _) eqn:E.
    + subst p'. simpl in Hid.
      assert (post = p)
        by (apply (NoDup_map_in_eq post_id (posts s)); assumption).
      subst post. auto.
    + subst e. rewrite (Hsame Hin). auto.
  - apply findByIdAndDelete_incl in Hp'. rewrite (Hsame Hp'). auto.
Qed.

Lemma post_identity_kept_witness :
  well_formed thread_store /\
  In (mkPost 100 "hello" None Private 1 10 10) (posts thread_store) /\
  In (mkPost 100 "edited" None Public 1 10 20)
    (posts (snd (handle 1 20
                   (UpdatePost 100 (mkPostBody (Some "edited") (Some "public")))
                   thread_store))) /\
  post_author (mkPost 100 "edited" None Public 1 10 20) =
  post_author (mkPost 100 "hello" None Private 1 10 10).
Proof.
  assert (Hwf : well_formed thread_store)
    by (apply reachable_wf, thread_store_reachable).
  split; [exact Hwf|]. split; [left; reflexivity|].
  split; [left; reflexivity|].
  apply (post_identity_kept 1 20
           (UpdatePost 100 (mkPostBody (Some "edited") (Some "public")))
           thread_store (mkPost 100 "hello" None Private 1 10 10)
           (mkPost 100 "edited" None Public 1 10 20) Hwf);
    [left; reflexivity | left; reflexivity | reflexivity].
Defined.

(** X6: comments and likes are never edited.  After any request, every
    stored comment and every stored like is a document that was stored
    before, as it was, or the one document the request created. *)
Theorem comments_and_likes_never_edited (uid : ObjectId) (now : Z)
    (r : Request) (s : Store) :
  (forall c, In c (comments (snd (handle uid now r s))) ->
     In c (comments s) \/ comment_id c = next_id s) /\
  (forall l, In l (likes (snd (handle uid now r s))) ->
     In l (likes s) \/ like_id l = next_id s).
Proof.
  split.
  - intros c Hc.
    destruct (handle_comments_change uid now r s)
      as [| t post author par now' _ | f].
    + auto.
    + apply in_app_or in Hc. destruct Hc as [Hc|[<-|[]]]; auto.
    + apply filter_In in Hc. tauto.
  - intros l Hl.
    destruct (handle_likes_change uid now r s) as [| f | id | u t tid now' _].
    + auto.
    + apply filter_In in Hl. tauto.
    + apply findByIdAndDelete_incl in Hl. auto.
    + apply in_app_or in Hl. destruct Hl as [Hl|[<-|[]]]; auto.
Qed.

(** ** Likes as the reads show them *)

Lemma feed_views_are_views uid qpage qlimit s v :
  In v (feed_views (get_feed uid qpage qlimit s)) ->
  v = post_view uid s (pv_post v) /\
  In (pv_post v) (feed_posts (get_feed uid qpage qlimit s)).
Proof.
  unfold feed_views, feed_posts, get_feed.
  destruct (_ <? 0)%Z; simpl; [contradiction|].
  intros Hin. rewrite in_map_iff in Hin. destruct Hin as [p [<- Hp]].
  split; [reflexivity|]. simpl. rewrite post_view_post. exact Hp.
Qed.

Lemma exists_like_of uid t tid ls :
  exists_ (like_of uid t tid) ls = true <->
  exists l, In l ls /\ like_user l = uid /\ targetType l = t /\
            targetId l = tid.
Proof.
  unfold exists_. rewrite existsb_exists. split.
  - intros [l [Hin Hl]]. apply like_of_key in Hl. inversion Hl. eauto.
  - intros [l [Hin [Hu [Ht Hi]]]]. exists l. split; [assumption|].
    apply like_of_key. unfold like_key. congruence.
Qed.

Lemma exists_count_pos uid t tid ls :
  exists_ (like_of uid t tid) ls = true ->
  1 <= countDocuments (likes_of t tid) ls.
Proof.
  unfold exists_. rewrite existsb_exists. intros [l [Hin Hl]].
  apply like_of_likes_of in Hl. unfold countDocuments.
  assert (Hf : In l (filter (likes_of t tid) ls))
    by (apply filter_In; auto).
  destruct (filter (likes_of t tid) ls); [contradiction | simpl; lia].
Qed.

Lemma likers_entries t tid s :
  listed_likers (likers t tid s) =
  map (liker_entry s)
    (sort_by likes_newest_first (filter (likes_of t tid) (likes s))).
Proof. reflexivity. Qed.

(** X7: the like annotations of the feed agree with the Like collection
    and with the likers route: a post is shown as liked exactly when the
    requester has a Like on it, a liked post has a count of at least one,
    and the count is the number of entries that the likers route lists for
    that post. *)
Theorem feed_like_annotations (uid : ObjectId) (qpage qlimit : option Z)
    (s : Store) (v : PostView) :
  In v (feed_views (get_feed uid qpage qlimit s)) ->
  (pv_isLiked v = true <->
   exists l, In l (likes s) /\ like_user l = uid /\
             targetType l = TPost /\ targetId l = post_id (pv_post v)) /\
  (pv_isLiked v = true -> 1 <= pv_likeCount v) /\
  pv_likeCount v =
    List.length (listed_likers (likers TPost (post_id (pv_post v)) s)).
Proof.
  intros Hin. destruct (feed_views_are_views _ _ _ _ _ Hin) as [Hv _].
  rewrite Hv. simpl. split; [apply exists_like_of|].
  split; [apply exists_count_pos|].
  rewrite likers_entries, length_map.
  rewrite (Permutation_length (sort_by_perm _ _)). reflexivity.
Qed.

Lemma feed_like_annotations_witness :
  In (mkPostView (mkPost 100 "hello" None Private 1 10 10) (Some alice) 1 true)
     (feed_views (get_feed 1 None None liked_store)) /\
  1 <= 1 /\
  1 = List.length (listed_likers (likers TPost 100 liked_store)).
Proof.
  assert (Hin : In (mkPostView (mkPost 100 "hello" None Private 1 10 10)
                      (Some alice) 1 true)
                   (feed_views (get_feed 1 None None liked_store)))
    by (left; reflexivity).
  split; [exact Hin|].
  destruct (feed_like_annotations 1 None None liked_store _ Hin)
    as (_ & Hpos & Hlen).
  split; [apply Hpos; reflexivity | exact Hlen].
Defined.

Lemma likes_of_spec t tid l :
  likes_of t tid l = true <-> targetType l = t /\ targetId l = tid.
Proof.
  unfold likes_of. rewrite andb_true_iff, Nat.eqb_eq.
  destruct (targetType l), t; simpl; intuition discriminate.
Qed.

(** The three ways a like request leaves the Like collection. *)
Lemma like_route_likes t uid id now s :
  well_formed s ->
  likes (snd (like_route t uid id now s)) = likes s \/
  (exists l1 e l2,
     likes s = l1 ++ e :: l2 /\ like_key e = (uid, t, id) /\
     likes (snd (like_route t uid id now s)) = l1 ++ l2) \/
  (exists_ (like_of uid t id) (likes s) = false /\
   likes (snd (like_route t uid id now s)) =
     likes s ++ [mkLike (next_id s) uid t id now now]).
Proof.
  intros Hwf. destruct (target_stored t id s) eqn:Et.
  - rewrite (like_route_stored t uid id now s Et).
    destruct (find (like_of uid t id) (likes s)) as [e|] eqn:Ef.
    + right. left.
      destruct (find_split _ _ _ Ef) as [l1 [l2 [Hl [He _]]]].
      exists l1, e, l2. split; [exact Hl|].
      split; [apply like_of_key; exact He|].
      unfold toggle. rewrite Ef. simpl. rewrite Hl.
      apply findByIdAndDelete_middle. rewrite <- Hl.
      apply (wf_likes_nodup s Hwf).
    + right. right. split; [apply find_none_existsb; exact Ef|].
      rewrite (toggle_absent uid t id now _ _ s Ef). reflexivity.
  - left. rewrite (proj2 (like_route_missing t uid id now s Et)).
    reflexivity.
Qed.

(** X8: a like request touches one pair only.  The like count of every
    other target, and whether any other (user, target) pair is liked, are
    the same after the request as before. *)
Theorem like_touches_one_pair (t : TargetType) (uid id : ObjectId) (now : Z)
    (s : Store) :
  well_formed s ->
  (forall t' id', (t', id') <> (t, id) ->
     countDocuments (likes_of t' id')
       (likes (snd (like_route t uid id now s))) =
     countDocuments (likes_of t' id') (likes s)) /\
  (forall u' t' id', (u', t', id') <> (uid, t, id) ->
     exists_ (like_of u' t' id') (likes (snd (like_route t uid id now s))) =
     exists_ (like_of u' t' id') (likes s)).
Proof.
  intros Hwf.
  destruct (like_route_likes t uid id now s Hwf)
    as [-> | [(l1 & e & l2 & Hl & He & ->) | [_ ->]]].
  - split; reflexivity.
  - rewrite Hl. split.
    + intros t' id' Hne. unfold countDocuments. rewrite !filter_app. simpl.
      destruct (likes_of t' id' e) eqn:E; [|reflexivity].
      apply likes_of_spec in E. destruct E as [E1 E2].
      inversion He. exfalso. apply Hne. congruence.
    + intros u' t' id' Hne. unfold exists_. rewrite !existsb_app. simpl.
      destruct (like_of u' t' id' e) eqn:E; [|reflexivity].
      apply like_of_key in E. exfalso. apply Hne. congruence.
  - split.
    + intros t' id' Hne. rewrite countDocuments_app.
      unfold countDocuments at 2. simpl.
      destruct (likes_of t' id' _) eqn:E; [|simpl; lia].
      apply likes_of_spec in E. simpl in E. destruct E as [E1 E2].
      exfalso. apply Hne. congruence.
    + intros u' t' id' Hne. unfold exists_. rewrite existsb_app. simpl.
      destruct (like_of u' t' id' _) eqn:E;
        [|rewrite !orb_false_r; reflexivity].
      apply like_of_key in E. unfold like_key in E. simpl in E.
      exfalso. apply Hne. congruence.
Qed.

Lemma like_touches_one_pair_witness :
  well_formed busy_store /\
  countDocuments (likes_of TComment 102)
    (likes (snd (like_route TPost 2 100 20 busy_store))) = 1 /\
  exists_ (like_of 1 TPost 100)
    (likes (snd (like_route TPost 2 100 20 busy_store))) = true.
Proof.
  assert (Hwf : well_formed busy_store).
  { apply reachable_wf. apply run_reachable. apply liked_store_reachable. }
  split; [exact Hwf|].
  destruct (like_touches_one_pair TPost 2 100 20 busy_store Hwf)
    as [Hc He].
  split.
  - rewrite (Hc TComment 102); [reflexivity | discriminate].
  - rewrite (He 1 TPost 100); [reflexivity | discriminate].
Defined.

Lemma like_post_posts uid pid now s :
  posts (snd (like_post uid pid now s)) = posts s /\
  users (snd (like_post uid pid now s)) = users s.
Proof.
  unfold like_post. destruct (findById pid (posts s)); [|auto].
  destruct (toggle_frame uid TPost pid now "Post liked" "Post unliked" s)
    as [Hu [Hp _]]. auto.
Qed.

(** X9: a like shows in the next feed.  After a user likes a stored post
    that they had not liked, every feed of that user returns the same
    posts as before, and shows that post as liked with a count one above
    the number of likes it had. *)
Theorem like_shows_in_feed (uid pid : ObjectId) (now : Z)
    (qpage qlimit : option Z) (s : Store) (v : PostView) :
  target_stored TPost pid s = true ->
  exists_ (like_of uid TPost pid) (likes s) = false ->
  let s1 := snd (like_post uid pid now s) in
  feed_posts (get_feed uid qpage qlimit s1) =
    feed_posts (get_feed uid qpage qlimit s) /\
  (In v (feed_views (get_feed uid qpage qlimit s1)) ->
   post_id (pv_post v) = pid ->
   pv_isLiked v = true /\
   pv_likeCount v = S (countDocuments (likes_of TPost pid) (likes s))).
Proof.
  intros Ht Hno. cbv zeta.
  destruct (like_post_posts uid pid now s) as [Hp Hu].
  assert (Hfind : find (like_of uid TPost pid) (likes s) = None).
  { destruct (find _ (likes s)) as [l|] eqn:E; [|reflexivity].
    apply find_some in E. destruct E as [Hin Hl].
    assert (existsb (like_of uid TPost pid) (likes s) = true)
      by (apply existsb_exists; eauto).
    unfold exists_ in Hno. congruence. }
  assert (Hl : likes (snd (like_post uid pid now s)) =
               likes s ++ [mkLike (next_id s) uid TPost pid now now]).
  { change like_post with (like_route TPost).
    rewrite (like_route_stored TPost uid pid now s Ht).
    rewrite (toggle_absent uid TPost pid now _ _ s Hfind). reflexivity. }
  split.
  - rewrite !feed_posts_page. cbv zeta. unfold feed_page. rewrite Hp.
    reflexivity.
  - intros Hin Hid.
    destruct (feed_views_are_views _ _ _ _ _ Hin) as [Hv _].
    rewrite Hv. simpl. rewrite Hid, Hl. split.
    + unfold exists_. rewrite existsb_app. simpl.
      rewrite (like_of_fresh uid TPost pid now (next_id s)).
      apply orb_true_r.
    + rewrite countDocuments_app. unfold countDocuments at 2.
      cbn [filter].
      rewrite (like_of_likes_of uid TPost pid _
                 (like_of_fresh uid TPost pid now (next_id s))).
      simpl. lia.
Qed.

Lemma like_shows_in_feed_witness :
  target_stored TPost 100 thread_store = true /\
  exists_ (like_of 1 TPost 100) (likes thread_store) = false /\
  In (mkPostView (mkPost 100 "hello" None Private 1 10 10) (Some alice) 1 true)
     (feed_views (get_feed 1 None None
                    (snd (like_post 1 100 13 thread_store)))) /\
  pv_isLiked
    (mkPostView (mkPost 100 "hello" None Private 1 10 10) (Some alice) 1 true)
    = true /\
  pv_likeCount
    (mkPostView (mkPost 100 "hello" None Private 1 10 10) (Some alice) 1 true)
    = S (countDocuments (likes_of TPost 100) (likes thread_store)).
Proof.
  split; [reflexivity|]. split; [reflexivity|].
  split; [left; reflexivity|].
  apply (proj2 (like_shows_in_feed 1 100 13 None None thread_store
                  (mkPostView (mkPost 100 "hello" None Private 1 10 10)
                     (Some alice) 1 true) eq_refl eq_refl));
    [left; reflexivity | reflexivity].
Defined.

Lemma NoDup_map_coarser {A B C : Type} (key : A -> B) (g : A -> C)
    (l : list A) :
  (forall a b, In a l -> In b l -> g a = g b -> key a = key b) ->
  NoDup (map key l) -> NoDup (map g l).
Proof.
  induction l as [|x l IH]; simpl; intros Hg Hnd; [constructor|].
  inversion Hnd as [|? ? Hnotin Hnd']; subst. constructor.
  - intros Hin. apply in_map_iff in Hin. destruct Hin as [y [Hy Hin]].
    apply Hnotin. rewrite <- (Hg y x); auto. apply in_map; assumption.
  - apply IH; auto.
Qed.

Lemma likes_newest_first_sorted l :
  StronglySorted (fun a b => (like_createdAt b <= like_createdAt a)%Z)
    (sort_by likes_newest_first l).
Proof.
  apply StronglySorted_impl
    with (R := fun a b => likes_newest_first a b = true).
  - unfold likes_newest_first. intros a b Hab. apply Z.leb_le; assumption.
  - apply sort_by_sorted; unfold likes_newest_first.
    + intros x y. rewrite !Z.leb_le. lia.
    + intros x y z. rewrite !Z.leb_le. lia.
Qed.

(** X10: the likers route answers 200 for any target id, stored or not,
    with one entry per Like on the target, newest first; where the unique
    index holds, as in every reachable store, no user is listed twice. *)
Theorem likers_listing (t : TargetType) (tid : ObjectId) (s : Store) :
  likes_unique s ->
  status (likers t tid s) = 200 /\
  exists ls,
    listed_likers (likers t tid s) = map (liker_entry s) ls /\
    Permutation ls (filter (likes_of t tid) (likes s)) /\
    StronglySorted (fun a b => (like_createdAt b <= like_createdAt a)%Z) ls /\
    NoDup (map like_user ls).
Proof.
  intros Hu. split; [reflexivity|].
  exists (sort_by likes_newest_first (filter (likes_of t tid) (likes s))).
  split; [apply likers_entries|].
  split; [apply sort_by_perm|].
  split; [apply likes_newest_first_sorted|].
  apply Permutation_NoDup
    with (l := map like_user (filter (likes_of t tid) (likes s))).
  { apply Permutation_map. symmetry. apply sort_by_perm. }
  apply NoDup_map_coarser with (key := like_key).
  - intros a b Ha Hb Hab. apply filter_In in Ha, Hb.
    destruct Ha as [_ Ha], Hb as [_ Hb].
    apply likes_of_spec in Ha, Hb. unfold like_key. intuition congruence.
  - apply NoDup_map_filter. exact Hu.
Qed.

Lemma likers_listing_witness :
  likes_unique busy_store /\
  status (likers TComment 102 busy_store) = 200 /\
  listed_likers (likers TComment 102 busy_store) = [(Some bob, 14%Z)] /\
  listed_likers (likers TPost 7 busy_store) = [].
Proof.
  assert (Hu : likes_unique busy_store).
  { apply reachable_likes_unique. apply run_reachable.
    apply liked_store_reachable. }
  split; [exact Hu|].
  split; [apply (proj1 (likers_listing TComment 102 busy_store Hu))|].
  split; reflexivity.
Defined.

(** ** Pages of the feed *)

Lemma firstn_add {A : Type} (a b : nat) (l : list A) :
  firstn (a + b) l = firstn a l ++ firstn b (skipn a l).
Proof.
  revert l. induction a as [|a IH]; intros l; simpl; [reflexivity|].
  destruct l as [|x l]; simpl.
  - rewrite firstn_nil. reflexivity.
  - f_equal. apply IH.
Qed.

Lemma pages_concat {A : Type} (n k : nat) (l : list A) :
  List.concat (map (fun i => firstn n (skipn (i * n) l)) (seq 0 k)) =
  firstn (k * n) l.
Proof.
  induction k as [|k IH]; [reflexivity|].
  rewrite seq_S, map_app, concat_app, IH. simpl.
  rewrite app_nil_r, <- firstn_add. f_equal. lia.
Qed.

Lemma get_feed_page uid (p l : Z) s :
  (1 <= p)%Z -> (1 <= l)%Z ->
  feed_posts (get_feed uid (Some p) (Some l) s) =
  firstn (Z.to_nat l)
    (skipn (Z.to_nat (p - 1) * Z.to_nat l)
       (sort_by newest_first (filter (feed_filter uid) (posts s)))).
Proof.
  intros Hp Hl. rewrite feed_posts_page. cbv zeta.
  rewrite !parse_or_pos by lia.
  destruct (Z.ltb_spec ((p - 1) * l) 0) as [Hneg|_]; [nia|].
  unfold feed_page. rewrite Z.abs_eq by lia.
  rewrite Z2Nat.inj_mul by lia. reflexivity.
Qed.



(** ** Reads after writes *)

Lemma feed_everything uid s :
  feed_posts (get_feed uid (Some 1%Z)
                (Some (Z.of_nat (S (List.length (posts s))))) s) =
  sort_by newest_first (filter (feed_filter uid) (posts s)).
Proof.
  rewrite get_feed_page by lia. rewrite Nat2Z.id. simpl skipn.
  apply firstn_all2.
  rewrite (Permutation_length (sort_by_perm newest_first _)).
  pose proof (filter_length_le (feed_filter uid) (posts s)). lia.
Qed.

Lemma in_feed_posts uid qpage qlimit s p :
  In p (feed_posts (get_feed uid qpage qlimit s)) ->
  In p (posts s) /\ feed_filter uid p = true.
Proof.
  rewrite feed_posts_page. cbv zeta. destruct (_ <? 0)%Z; [contradiction|].
  intros Hin. apply in_feed_page in Hin. apply filter_In in Hin. exact Hin.
Qed.



Lemma filter_filter_implied {A : Type} (f g : A -> bool) (l : list A) :
  (forall x, f x = true -> g x = true) ->
  filter f (filter g l) = filter f l.
Proof.
  intros Hfg. induction l as [|x l IH]; simpl; [reflexivity|].
  destruct (g x) eqn:Eg; simpl.
  - destruct (f x); [f_equal|]; exact IH.
  - destruct (f x) eqn:Ef; [|exact IH]. apply Hfg in Ef. congruence.
Qed.

Lemma existsb_filter_implied {A : Type} (f g : A -> bool) (l : list A) :
  (forall x, f x = true -> g x = true) ->
  existsb f (filter g l) = existsb f l.
Proof.
  intros Hfg. induction l as [|x l IH]; simpl; [reflexivity|].
  destruct (g x) eqn:Eg; simpl.
  - rewrite IH. reflexivity.
  - destruct (f x) eqn:Ef; [|exact IH]. apply Hfg in Ef. congruence.
Qed.

(** A comment listing reads the comments, the users and the likes on
    comments, and nothing else. *)
Lemma get_comments_ext uid postId s s' :
  users s' = users s -> comments s' = comments s ->
  (forall c, filter (likes_of TComment c) (likes s') =
             filter (likes_of TComment c) (likes s)) ->
  (forall u c, existsb (like_of u TComment c) (likes s') =
               existsb (like_of u TComment c) (likes s)) ->
  get_comments uid postId s' = get_comments uid postId s.
Proof.
  intros Hu Hc Hcount Hex. unfold get_comments. rewrite Hc.
  do 2 f_equal. apply map_ext. intros c.
  unfold comment_view, countDocuments, exists_.
  rewrite Hu, Hc, Hcount, Hex. f_equal. apply map_ext. intros r.
  unfold reply_view, countDocuments, exists_. rewrite Hu, Hcount, Hex.
  reflexivity.
Qed.

Lemma delete_post_done uid pid s p :
  findById pid (posts s) = Some p -> post_author p = uid ->
  delete_post uid pid s =
  (ok "Post deleted successfully" NoData,
   set_likes (deleteMany (likes_of TPost pid) (likes s))
     (set_posts (findByIdAndDelete pid (posts s)) s)).
Proof.
  intros Hf Ha. unfold delete_post. rewrite Hf.
  apply Nat.eqb_eq in Ha. rewrite Ha. reflexivity.
Qed.

(** X13: once its author has deleted a post, no feed page of any user
    holds it and its likers listing is empty, while the listing of its
    comments is exactly what it was before: the comments of a deleted post
    stay readable, with their replies and like annotations. *)
Theorem deleted_post_reads (uid pid : ObjectId) (s : Store) (p : Post) :
  well_formed s ->
  findById pid (posts s) = Some p ->
  post_author p = uid ->
  let s1 := snd (delete_post uid pid s) in
  (forall u qpage qlimit q,
     In q (feed_posts (get_feed u qpage qlimit s1)) -> post_id q <> pid) /\
  listed_likers (likers TPost pid s1) = [] /\
  (forall u, get_comments u pid s1 = get_comments u pid s).
Proof.
  intros Hwf Hf Ha. cbv zeta. rewrite (delete_post_done uid pid s p Hf Ha).
  simpl snd. split; [|split].
  - intros u qpage qlimit q Hq Hid. apply in_feed_posts in Hq.
    destruct Hq as [Hin _]. cbn [posts set_posts set_likes] in Hin.
    assert (Hd : findByIdAndDelete pid (posts s) =
                 filter (fun q => negb (post_id q =? pid)) (posts s))
      by (apply (findByIdAndDelete_filter pid (posts s)),
            (wf_posts_nodup s Hwf)).
    rewrite Hd in Hin. apply filter_In in Hin. destruct Hin as [_ Hk].
    rewrite Hid, Nat.eqb_refl in Hk. discriminate.
  - rewrite likers_entries. simpl likes. unfold deleteMany.
    assert (Hnil : filter (likes_of TPost pid)
                     (filter (fun d => negb (likes_of TPost pid d)) (likes s))
                   = []).
    { induction (likes s) as [|l ls IH]; simpl; [reflexivity|].
      destruct (likes_of TPost pid l) eqn:E; simpl; [exact IH|].
      rewrite E. exact IH. }
    rewrite Hnil. reflexivity.
  - intros u. apply get_comments_ext; try reflexivity; simpl; unfold deleteMany.
    + intros c. apply filter_filter_implied. intros l Hl.
      apply likes_of_spec in Hl. destruct Hl as [Ht _].
      unfold likes_of. rewrite Ht. reflexivity.
    + intros v c. apply existsb_filter_implied. intros l Hl.
      apply like_of_likes_of, likes_of_spec in Hl. destruct Hl as [Ht _].
      unfold likes_of. rewrite Ht. reflexivity.
Qed.

Lemma deleted_post_reads_witness :
  well_formed busy_store /\
  findById 100 (posts busy_store) =
    Some (mkPost 100 "hello" None Private 1 10 10) /\
  listed_likers (likers TPost 100 (snd (delete_post 1 100 busy_store))) = [] /\
  get_comments 2 100 (snd (delete_post 1 100 busy_store)) =
    get_comments 2 100 busy_store /\
  List.length (listed_comments (get_comments 2 100 busy_store)) = 1.
Proof.
  assert (Hwf : well_formed busy_store).
  { apply reachable_wf. apply run_reachable. apply liked_store_reachable. }
  split; [exact Hwf|]. split; [reflexivity|].
  destruct (deleted_post_reads 1 100 busy_store
              (mkPost 100 "hello" None Private 1 10 10) Hwf eq_refl eq_refl)
    as (_ & Hl & Hc).
  split; [exact Hl|]. split; [apply Hc | reflexivity].
Defined.

(** ** What a comment listing shows *)

Lemma replies_of_spec cid c :
  replies_of cid c = true <-> parent c = Some cid.
Proof.
  unfold replies_of. destruct (parent c) as [p|].
  - rewrite Nat.eqb_eq. split; congruence.
  - split; discriminate.
Qed.

Lemma reply_view_comment uid s l : map rv_comment (map (reply_view uid s) l) = l.
Proof. rewrite map_map. simpl. apply map_id. Qed.

(** A listing shows the top-level comments of the post and the comments
    filed directly under one of them. *)
Lemma shown_comments_spec uid postId s d :
  In d (shown_comments (get_comments uid postId s)) <->
  (In d (comments s) /\ top_level_of postId d = true) \/
  (exists t, In t (comments s) /\ top_level_of postId t = true /\
             In d (comments s) /\ parent d = Some (comment_id t)).
Proof.
  unfold shown_comments, listed_views, get_comments. simpl.
  rewrite in_flat_map. split.
  - intros [v [Hv Hd]]. apply in_map_iff in Hv. destruct Hv as [t [<- Ht]].
    apply sort_by_in, filter_In in Ht. destruct Ht as [Ht Htop].
    simpl in Hd. destruct Hd as [<-|Hd]; [left; auto|].
    rewrite reply_view_comment in Hd.
    apply sort_by_in, filter_In in Hd. destruct Hd as [Hd Hr].
    apply replies_of_spec in Hr. right. exists t. auto.
  - intros [[Hd Htop]|[t [Ht [Htop [Hd Hp]]]]].
    + exists (comment_view uid s d). split.
      * apply in_map. apply sort_by_in, filter_In. auto.
      * left. reflexivity.
    + exists (comment_view uid s t). split.
      * apply in_map. apply sort_by_in, filter_In. auto.
      * right. simpl. rewrite reply_view_comment.
        apply sort_by_in, filter_In. split; [assumption|].
        apply replies_of_spec. exact Hp.
Qed.

(** X14: a comment listing goes two levels deep and no further.  It shows
    a comment exactly when the comment is a top-level comment of the post
    or is filed directly under one; with distinct ids, a stored comment
    whose parent is a stored reply is shown by no listing at all. *)
Theorem listing_two_levels (uid postId : ObjectId) (s : Store) :
  (forall d,
     In d (shown_comments (get_comments uid postId s)) <->
     (In d (comments s) /\ comment_post d = postId /\ parent d = None) \/
     (exists t, In t (comments s) /\ comment_post t = postId /\
                parent t = None /\
                In d (comments s) /\ parent d = Some (comment_id t))) /\
  (well_formed s ->
   forall d pc,
     In d (comments s) -> In pc (comments s) ->
     parent d = Some (comment_id pc) -> parent pc <> None ->
     ~ In d (shown_comments (get_comments uid postId s))).
Proof.
  split.
  - intros d. rewrite shown_comments_spec. rewrite top_level_of_spec.
    split.
    + intros [H|[t [Ht [Htop H]]]]; [left; tauto|].
      apply top_level_of_spec in Htop. right. exists t. tauto.
    + intros [H|[t [Ht [Hp [Hn H]]]]]; [left; tauto|].
      right. exists t. rewrite top_level_of_spec. tauto.
  - intros Hwf d pc Hd Hpc Hpar Hreply Hshown.
    apply shown_comments_spec in Hshown.
    destruct Hshown as [[_ Htop]|[t [Ht [Htop [_ Hp]]]]].
    + apply top_level_of_spec in Htop. destruct Htop as [_ Hn]. congruence.
    + apply top_level_of_spec in Htop. destruct Htop as [_ Hn].
      assert (t = pc).
      { apply (NoDup_map_in_eq comment_id (comments s));
          [apply (wf_comments_nodup s Hwf) | assumption | assumption |].
        congruence. }
      subst t. contradiction.
Qed.

Lemma listing_two_levels_witness :
  well_formed nested_store /\
  parent (mkComment 103 "again" 100 2 (Some 102) 16 16) = Some 102 /\
  ~ In (mkComment 103 "again" 100 2 (Some 102) 16 16)
      (shown_comments (get_comments 1 100 nested_store)).
Proof.
  assert (Hwf : well_formed nested_store).
  { apply reachable_wf. apply run_reachable. apply thread_store_reachable. }
  split; [exact Hwf|]. split; [reflexivity|].
  apply (proj2 (listing_two_levels 1 100 nested_store) Hwf
           (mkComment 103 "again" 100 2 (Some 102) 16 16)
           (mkComment 102 "thanks" 100 1 (Some 101) 12 12)).
  - simpl. tauto.
  - simpl. tauto.
  - reflexivity.
  - discriminate.
Defined.

Lemma delete_comment_done uid cid s c :
  findById cid (comments s) = Some c -> comment_author c = uid ->
  delete_comment uid cid s =
  (ok "Comment deleted successfully" NoData,
   set_likes (deleteMany (likes_of TComment cid) (likes s))
     (set_comments (deleteMany (comment_or_reply cid) (comments s)) s)).
Proof.
  intros Hf Ha. unfold delete_comment. rewrite Hf.
  apply Nat.eqb_eq in Ha. rewrite Ha. reflexivity.
Qed.

Lemma comment_or_reply_spec cid c :
  comment_or_reply cid c = false <->
  comment_id c <> cid /\ parent c <> Some cid.
Proof.
  unfold comment_or_reply. rewrite orb_false_iff, Nat.eqb_neq.
  rewrite <- replies_of_spec. destruct (replies_of cid c);
    intuition congruence.
Qed.

(** X15: after its author deletes a comment, every listing shows exactly
    what it showed before minus that comment and the comments filed under
    it: they are gone from all listings, and nothing else disappears. *)
Theorem deleted_comment_not_listed (uid cid : ObjectId) (s : Store)
    (c : Comment) :
  findById cid (comments s) = Some c ->
  comment_author c = uid ->
  let s1 := snd (delete_comment uid cid s) in
  forall u postId d,
    In d (shown_comments (get_comments u postId s1)) <->
    In d (shown_comments (get_comments u postId s)) /\
    comment_id d <> cid /\ parent d <> Some cid.
Proof.
  intros Hf Ha. cbv zeta. rewrite (delete_comment_done uid cid s c Hf Ha).
  simpl snd. intros u postId d. rewrite !shown_comments_spec.
  cbn [comments set_comments set_likes]. unfold deleteMany.
  assert (Hin : forall x,
             In x (filter (fun e => negb (comment_or_reply cid e)) (comments s))
             <-> In x (comments s) /\ comment_id x <> cid /\
                 parent x <> Some cid).
  { intros x. rewrite filter_In, negb_true_iff, comment_or_reply_spec.
    tauto. }
  split.
  - intros [[Hd Htop]|[t [Ht [Htop [Hd Hp]]]]].
    + apply Hin in Hd. tauto.
    + apply Hin in Hd. apply Hin in Ht. split; [|tauto].
      right. exists t. tauto.
  - intros [[[Hd Htop]|[t [Ht [Htop [Hd Hp]]]]] [Hid Hpar]].
    + left. rewrite Hin. tauto.
    + right. exists t. rewrite !Hin.
      assert (comment_id t <> cid) by congruence.
      apply top_level_of_spec in Htop as Htop'. destruct Htop' as [_ Hn].
      assert (parent t <> Some cid) by congruence. tauto.
Qed.

Lemma deleted_comment_not_listed_witness :
  findById 101 (comments busy_store) =
    Some (mkComment 101 "first" 100 2 None 11 11) /\
  shown_comments (get_comments 1 100 busy_store) =
    [mkComment 101 "first" 100 2 None 11 11;
     mkComment 102 "thanks" 100 1 (Some 101) 12 12] /\
  ~ In (mkComment 102 "thanks" 100 1 (Some 101) 12 12)
      (shown_comments
         (get_comments 1 100 (snd (delete_comment 2 101 busy_store)))).
Proof.
  split; [reflexivity|]. split; [reflexivity|].
  intros Hin.
  destruct (proj1 (deleted_comment_not_listed 2 101 busy_store
                     (mkComment 101 "first" 100 2 None 11 11)
                     eq_refl eq_refl 1 100
                     (mkComment 102 "thanks" 100 1 (Some 101) 12 12)) Hin)
    as [_ [_ Hp]].
  apply Hp. reflexivity.
Defined.

(** ** References in reachable stores *)

Lemma toggle_effect uid t tid now liked unliked s :
  target_stored t tid s = true ->
  effect s (snd (toggle uid t tid now liked unliked s)).
Proof.
  intros Ht. unfold toggle. destruct (find _ (likes s)) as [e|].
  - exact (effect_unliked s (like_id e)).
  - unfold Like_create. destruct (exists_ _ _).
    + exact (effect_none s).
    + exact (effect_liked s uid t tid now Ht).
Qed.

Lemma handle_effect uid now r s : effect s (snd (handle uid now r s)).
Proof.
  destruct r; simpl; try exact (effect_none s).
  - unfold create_post. destruct (validatePost b) as [b' errors].
    destruct (negb (is_nil errors)); [exact (effect_none s)|].
    destruct file as [[u|]|];
      destruct (match body_privacy b' with
                | Some p => Privacy_of_string p | None => Some Public end);
      try exact (effect_none s);
      unfold Post_create; destruct (_ || _); cbn [snd];
      first [exact (effect_none s)
            | refine (effect_post_created s _ _); reflexivity].
  - unfold update_post. destruct (validatePost b) as [b' errors].
    destruct (negb (is_nil errors)); [exact (effect_none s)|].
    destruct (findById pid (posts s)) as [post|]; [|exact (effect_none s)].
    destruct (negb (post_author post =? uid)); [exact (effect_none s)|].
    destruct (match body_privacy b' with
              | Some "" | None => Some (privacy post)
              | Some p => Privacy_of_string p end); [|exact (effect_none s)].
    destruct (_ || _); [exact (effect_none s)|].
    exact (effect_post_saved s _).
  - unfold delete_post.
    destruct (findById pid (posts s)) as [post|]; [|exact (effect_none s)].
    destruct (negb (post_author post =? uid)); [exact (effect_none s)|].
    exact (effect_post_deleted s pid).
  - unfold like_post.
    destruct (findById pid (posts s)) eqn:Ef; [|exact (effect_none s)].
    apply toggle_effect. simpl. rewrite Ef. reflexivity.
  - unfold create_comment. destruct (validateComment b) as [b' errors].
    destruct (negb (is_nil errors)); [exact (effect_none s)|].
    destruct (body_postId b') as [postId|]; [|exact (effect_none s)].
    destruct (findById postId (posts s)); [|exact (effect_none s)].
    unfold Comment_create. destruct (_ || _); [exact (effect_none s)|].
    cbn [snd]. refine (effect_commented s _ _ _); [reflexivity|].
    simpl. discriminate.
  - unfold reply_comment. destruct (validateComment b) as [b' errors].
    destruct (negb (is_nil errors)); [exact (effect_none s)|].
    destruct (findById cid (comments s)) as [pc|] eqn:Ef;
      [|exact (effect_none s)].
    unfold Comment_create. destruct (_ || _); [exact (effect_none s)|].
    cbn [snd]. refine (effect_commented s _ _ _); [reflexivity|]. simpl.
    intros p Hp. inversion Hp; subst. eauto.
  - unfold like_comment.
    destruct (findById cid (comments s)) eqn:Ef; [|exact (effect_none s)].
    apply toggle_effect. simpl. rewrite Ef. reflexivity.
  - unfold delete_comment.
    destruct (findById cid (comments s)) as [c|]; [|exact (effect_none s)].
    destruct (negb (comment_author c =? uid)); [exact (effect_none s)|].
    exact (effect_comment_deleted s cid).
Qed.

Lemma target_stored_below t tid s :
  well_formed s -> target_stored t tid s = true -> tid < next_id s.
Proof.
  intros Hwf. destruct t; simpl.
  - destruct (findById tid (posts s)) as [p|] eqn:E; [|discriminate].
    intros _. apply findById_some in E. destruct E as [Hin <-].
    pose proof (wf_posts s Hwf) as Hb. unfold ids_below in Hb.
    rewrite Forall_forall in Hb. apply Hb, Hin.
  - destruct (findById tid (comments s)) as [c|] eqn:E; [|discriminate].
    intros _. apply findById_some in E. destruct E as [Hin <-].
    pose proof (wf_comments s Hwf) as Hb. unfold ids_below in Hb.
    rewrite Forall_forall in Hb. apply Hb, Hin.
Qed.

Lemma effect_references s s' :
  effect s s' -> well_formed s -> parents_below s -> targets_below s ->
  parents_below s' /\ targets_below s'.
Proof.
  unfold parents_below, targets_below.
  intros He Hwf Hp Ht. destruct He; simpl in *.
  - auto.
  - split; intros; [eapply Nat.lt_lt_succ_r, Hp | apply Nat.lt_lt_succ_r, Ht];
      eauto.
  - auto.
  - split; [exact Hp|]. intros l Hl. unfold deleteMany in Hl.
    apply filter_In in Hl. apply Ht, Hl.
  - split; [exact Hp|]. intros l Hl. apply findByIdAndDelete_incl in Hl.
    apply Ht, Hl.
  - split; [intros; eapply Nat.lt_lt_succ_r, Hp; eauto|].
    intros l Hl. apply in_app_or in Hl. destruct Hl as [Hl|[<-|[]]].
    + apply Nat.lt_lt_succ_r, Ht, Hl.
    + simpl. apply Nat.lt_lt_succ_r. eapply target_stored_below; eauto.
  - split; [|intros; apply Nat.lt_lt_succ_r, Ht; assumption].
    intros d p Hd Hpar. apply in_app_or in Hd. destruct Hd as [Hd|[<-|[]]].
    + eapply Nat.lt_lt_succ_r, Hp; eauto.
    + match goal with H : forall p, parent _ = Some p -> _ |- _ =>
        destruct (H p Hpar) as [pc [Hf _]] end.
      apply findById_some in Hf. destruct Hf as [Hin <-].
      pose proof (wf_comments s Hwf) as Hb. unfold ids_below in Hb.
      rewrite Forall_forall in Hb. apply Nat.lt_lt_succ_r, Hb, Hin.
  - split.
    + intros d p Hd. unfold deleteMany in Hd. apply filter_In in Hd.
      apply Hp, Hd.
    + intros l Hl. unfold deleteMany in Hl. apply filter_In in Hl.
      apply Ht, Hl.
Qed.

Lemma effect_replies_follow_parent s s' :
  effect s s' -> well_formed s -> parents_below s ->
  replies_follow_parent s -> replies_follow_parent s'.
Proof.
  unfold replies_follow_parent.
  intros He Hwf Hp Hr. destruct He; simpl in *; try exact Hr.
  - intros r pc Hin Hpc Hpar.
    apply in_app_or in Hin. apply in_app_or in Hpc.
    destruct Hin as [Hin|[<-|[]]], Hpc as [Hpc|[<-|[]]].
    + eauto.
    + exfalso. specialize (Hp r _ Hin Hpar).
      match goal with H : comment_id _ = next_id s |- _ => rewrite H in Hp end.
      lia.
    + match goal with H : forall p, parent _ = Some p -> _ |- _ =>
        destruct (H _ Hpar) as [pc' [Hf Hpost]] end.
      apply findById_some in Hf. destruct Hf as [Hin' Hid].
      assert (pc' = pc).
      { apply (NoDup_map_in_eq comment_id (comments s));
          [apply (wf_comments_nodup s Hwf) | assumption | assumption |].
        exact Hid. }
      subst pc'. congruence.
    + reflexivity.
  - intros r pc Hin Hpc. unfold deleteMany in Hin, Hpc.
    apply filter_In in Hin. apply filter_In in Hpc. apply Hr; tauto.
Qed.

Lemma reachable_references s :
  reachable s ->
  parents_below s /\ targets_below s /\ replies_follow_parent s.
Proof.
  induction 1 as [s [_ [Hc Hl]] | s uid now r Hs [Hp [Ht Hr]]].
  - unfold parents_below, targets_below, replies_follow_parent.
    rewrite Hc, Hl. simpl. tauto.
  - pose proof (reachable_wf s Hs) as Hwf.
    pose proof (handle_effect uid now r s) as He.
    destruct (effect_references _ _ He Hwf Hp Ht) as [Hp' Ht'].
    split; [exact Hp'|]. split; [exact Ht'|].
    apply (effect_replies_follow_parent _ _ He Hwf Hp Hr).
Qed.

(** X16: in every reachable store a reply is filed under the post of its
    parent, whenever the parent is still stored. *)
Theorem reply_in_parents_post (s : Store) (r pc : Comment) :
  reachable s ->
  In r (comments s) -> In pc (comments s) ->
  parent r = Some (comment_id pc) ->
  comment_post r = comment_post pc.
Proof.
  intros Hs. destruct (reachable_references s Hs) as [_ [_ Hr]].
  apply Hr.
Qed.

Lemma reply_in_parents_post_witness :
  reachable nested_store /\
  In (mkComment 103 "again" 100 2 (Some 102) 16 16) (comments nested_store) /\
  comment_post (mkComment 103 "again" 100 2 (Some 102) 16 16) =
  comment_post (mkComment 102 "thanks" 100 1 (Some 101) 12 12).
Proof.
  assert (Hs : reachable nested_store)
    by (apply run_reachable, thread_store_reachable).
  split; [exact Hs|]. split; [simpl; tauto|].
  apply (reply_in_parents_post nested_store _ _ Hs);
    [simpl; tauto | simpl; tauto | reflexivity].
Defined.

Lemma filter_none {A : Type} (f : A -> bool) (l : list A) :
  (forall x, In x l -> f x = false) -> filter f l = [].
Proof.
  induction l as [|x l IH]; simpl; intros Hf; [reflexivity|].
  rewrite (Hf x (or_introl eq_refl)). apply IH. intros; apply Hf; auto.
Qed.

(** A comment with a valid text on a stored post is created. *)
Lemma create_comment_created uid now b s postId p :
  snd (validateComment b) = [] ->
  body_postId b = Some postId ->
  findById postId (posts s) = Some p ->
  create_comment uid now b s =
  (created "Comment created successfully"
     (CommentData
        (mkComment (next_id s) (trim (to_string (body_text b))) postId uid
           None now now) (populate (users s) uid)),
   fresh (set_comments
            (comments s ++
             [mkComment (next_id s) (trim (to_string (body_text b))) postId uid
                None now now]) s)).
Proof.
  intros Hv Hb Hf. destruct (validateComment_passes b Hv) as [Hs Hlen].
  unfold create_comment.
  destruct (validateComment b) as [b' errors]. simpl in Hv, Hs. subst.
  cbn [is_nil negb body_postId body_text to_string]. rewrite Hb, Hf.
  rewrite (Comment_create_valid _ _ _ _ _ _ Hlen). reflexivity.
Qed.



(** * Registration and login *)

Lemma list_eq_dec_nil {A : Type} (l : list A) : {l = []} + {l <> []}.
Proof. destruct l; [left; reflexivity | right; discriminate]. Qed.

Section AuthFacts.
Context `{AuthEnv}.

Lemma findOne_email_some e c a :
  findOne_email e c = Some a -> In a c /\ account_email a = e.
Proof.
  unfold findOne_email. intros Hf. apply find_some in Hf.
  destruct Hf as [Hin He]. apply String.eqb_eq in He. auto.
Qed.

Lemma findOne_email_none e c :
  findOne_email e c = None -> forall a, In a c -> account_email a <> e.
Proof.
  unfold findOne_email. intros Hf a Hin He.
  apply (find_none _ _ Hf) in Hin. apply String.eqb_neq in Hin. auto.
Qed.

Lemma findOne_email_append e c a :
  findOne_email e c = None -> account_email a = e ->
  findOne_email e (c ++ [a]) = Some a.
Proof.
  unfold findOne_email. intros Hf He. rewrite find_app_none by exact Hf.
  simpl. rewrite He, String.eqb_refl. reflexivity.
Qed.

(** The bodies that [registerValidation] lets through. *)
Lemma registerValidation_passes b :
  snd (registerValidation b) = [] <->
  isEmail (trim (to_string (body_email b))) = true /\
  6 <= String.length (to_string (body_password b)) /\
  has_digit (to_string (body_password b)) = true.
Proof.
  unfold registerValidation. cbn [snd].
  destruct (isEmail _) eqn:Ee; cbn [app].
  - destruct (Nat.ltb_spec (String.length (to_string (body_password b))) 6);
      cbn [app].
    + split; [discriminate|]. intros [_ [Hl _]]. lia.
    + destruct (has_digit _).
      * split; auto.
      * split; [discriminate|]. intros [_ [_ Hd]]. discriminate.
  - split; [discriminate|]. intros [He _]. discriminate.
Qed.

Lemma register_valid now b s :
  snd (registerValidation b) = [] ->
  register now b s =
  let e := normalizeEmail (trim (to_string (body_email b))) in
  match findOne_email e (accounts s) with
  | Some _ =>
      (mkAuthResponse 400 false
         (Some "User with this email already exists") AuthNoData, s)
  | None =>
      (mkAuthResponse 201 true
         (Some "Registration successful. Please login to continue.")
         (AuthUser (mkUser (auth_next_id s) e now)),
       mkAuthStore
         (accounts s ++
          [mkAccount (mkUser (auth_next_id s) e now)
             (hashPassword (to_string (body_password b)))])
         (S (auth_next_id s)))
  end.
Proof.
  intros Hv. unfold register.
  assert (Hb : fst (registerValidation b) =
               mkAuthBody
                 (Some (normalizeEmail (trim (to_string (body_email b)))))
                 (body_password b)) by reflexivity.
  destruct (registerValidation b) as [b' errors]. simpl in Hv, Hb. subst.
  cbn [is_nil negb body_email body_password to_string].
  destruct (findOne_email _ (accounts s)); reflexivity.
Qed.

Lemma register_invalid now b s :
  snd (registerValidation b) <> [] ->
  register now b s =
  (mkAuthResponse 400 false None (AuthErrors (snd (registerValidation b))), s).
Proof.
  intros Hv. unfold register.
  destruct (registerValidation b) as [b' errors]. cbn [snd] in *.
  destruct errors; [congruence | reflexivity].
Qed.


(** X19: an email registers once.  After a registration was answered 201,
    a further registration whose email normalizes to the same address is
    answered 400 "User with this email already exists", whatever its
    (valid) password, and stores nothing. *)
Theorem register_twice_rejected (now1 now2 : Z) (b b' : AuthBody)
    (s : AuthStore) :
  auth_status (fst (register now1 b s)) = 201 ->
  snd (registerValidation b') = [] ->
  normalizeEmail (trim (to_string (body_email b'))) =
  normalizeEmail (trim (to_string (body_email b))) ->
  register now2 b' (snd (register now1 b s)) =
  (mkAuthResponse 400 false (Some "User with this email already exists")
     AuthNoData,
   snd (register now1 b s)).
Proof.
  intros Hst Hv' He.
  destruct (list_eq_dec_nil (snd (registerValidation b))) as [Hv|Hv];
    [|rewrite (register_invalid now1 b s Hv) in Hst; discriminate].
  rewrite (register_valid now1 b s Hv) in *. cbv zeta in *.
  destruct (findOne_email _ (accounts s)) eqn:Ef; [discriminate|].
  cbn [snd]. rewrite (register_valid now2 b' _ Hv'). cbv zeta.
  cbn [accounts]. rewrite He.
  rewrite (findOne_email_append _ _ _ Ef); reflexivity.
Qed.

(** X20: registration keeps emails unique: if no two accounts share an
    email before a registration request, none do after it. *)
Theorem register_keeps_emails_unique (now : Z) (b : AuthBody)
    (s : AuthStore) :
  NoDup (map account_email (accounts s)) ->
  NoDup (map account_email (accounts (snd (register now b s)))).
Proof.
  intros Hnd.
  destruct (list_eq_dec_nil (snd (registerValidation b))) as [Hv|Hv];
    [|rewrite (register_invalid now b s Hv); exact Hnd].
  rewrite (register_valid now b s Hv). cbv zeta.
  destruct (findOne_email _ (accounts s)) eqn:Ef; [exact Hnd|].
  cbn [snd accounts]. apply NoDup_map_append; [exact Hnd|].
  intros a Ha. apply (findOne_email_none _ _ Ef a Ha).
Qed.

(** X21: a failed login does not tell why it failed.  Any two login
    requests that are answered 401 -- unknown email or wrong password, on
    any stores -- receive the same response. *)
Theorem login_failures_alike (b1 b2 : AuthBody) (s1 s2 : AuthStore) :
  auth_status (login b1 s1) = 401 ->
  auth_status (login b2 s2) = 401 ->
  login b1 s1 = login b2 s2.
Proof.
  assert (Hone : forall b s,
            auth_status (login b s) = 401 ->
            login b s = mkAuthResponse 401 false
                          (Some "Invalid email or password") AuthNoData).
  { intros b s. unfold login. destruct (loginValidation b) as [b' errors].
    destruct (negb (is_nil errors)); [discriminate|].
    destruct (findOne_email _ (accounts s)) as [a|]; [|reflexivity].
    destruct (negb (comparePassword _ _)); [reflexivity | discriminate]. }
  intros H1 H2. rewrite (Hone b1 s1 H1), (Hone b2 s2 H2). reflexivity.
Qed.

(** X22: who registers can log in.  Provided the password check accepts
    the password against its own hash, a login with the body of a
    registration that was answered 201 is answered 200, with a token made
    for the new account's id and stored email. *)
Theorem register_then_login (now : Z) (b : AuthBody) (s : AuthStore) :
  (forall p, comparePassword (hashPassword p) p = true) ->
  auth_status (fst (register now b s)) = 201 ->
  let e := normalizeEmail (trim (to_string (body_email b))) in
  login b (snd (register now b s)) =
  mkAuthResponse 200 true (Some "Login successful")
    (AuthSession (generateToken (auth_next_id s) e)
       (mkUser (auth_next_id s) e now)).
Proof.
  intros Hhash Hst. cbv zeta.
  destruct (list_eq_dec_nil (snd (registerValidation b))) as [Hv|Hv];
    [|rewrite (register_invalid now b s Hv) in Hst; discriminate].
  destruct (proj1 (registerValidation_passes b) Hv) as [He [Hl _]].
  rewrite (register_valid now b s Hv) in *. cbv zeta in *.
  destruct (findOne_email _ (accounts s)) eqn:Ef; [discriminate|].
  cbn [snd]. unfold login, loginValidation. rewrite He.
  destruct (Nat.eqb_spec (String.length (to_string (body_password b))) 0);
    [lia|].
  cbn [app is_nil negb body_email body_password to_string accounts].
  rewrite (findOne_email_append _ _ _ Ef) by reflexivity.
  cbn [account_password account_user user_id account_email user_email].
  rewrite Hhash. reflexivity.
Qed.
End AuthFacts.


Lemma register_twice_rejected_witness :
  auth_status
    (fst (register (H := sample_env) 5
            (mkAuthBody (Some "carol@example.com") (Some "secret1"))
            empty_accounts)) = 201 /\
  auth_status
    (fst (register (H := sample_env) 6
            (mkAuthBody (Some "  carol@example.com") (Some "other22"))
            (snd (register (H := sample_env) 5
                    (mkAuthBody (Some "carol@example.com") (Some "secret1"))
                    empty_accounts)))) = 400.
Proof.
  split; [reflexivity|].
  rewrite (register_twice_rejected (H := sample_env) 5 6
             (mkAuthBody (Some "carol@example.com") (Some "secret1"))
             (mkAuthBody (Some "  carol@example.com") (Some "other22"))
             empty_accounts eq_refl eq_refl eq_refl).
  reflexivity.
Defined.

Lemma register_keeps_emails_unique_witness :
  NoDup (map account_email (accounts empty_accounts)) /\
  NoDup (map account_email
           (accounts
              (snd (register (H := sample_env) 5
                      (mkAuthBody (Some "carol@example.com") (Some "secret1"))
                      empty_accounts)))).
Proof.
  assert (Hnd : NoDup (map account_email (accounts empty_accounts)))
    by constructor.
  split; [exact Hnd|].
  apply (register_keeps_emails_unique (H := sample_env)). exact Hnd.
Defined.

Lemma login_failures_alike_witness :
  login (H := sample_env)
    (mkAuthBody (Some "dave@example.com") (Some "secret1")) empty_accounts =
  login (H := sample_env)
    (mkAuthBody (Some "carol@example.com") (Some "wrong"))
    (snd (register (H := sample_env) 5
            (mkAuthBody (Some "carol@example.com") (Some "secret1"))
            empty_accounts)).
Proof.
  apply (login_failures_alike (H := sample_env)); reflexivity.
Defined.

Lemma register_then_login_witness :
  login (H := sample_env)
    (mkAuthBody (Some "carol@example.com") (Some "secret1"))
    (snd (register (H := sample_env) 5
            (mkAuthBody (Some "carol@example.com") (Some "secret1"))
            empty_accounts)) =
  mkAuthResponse 200 true (Some "Login successful")
    (AuthSession "token:carol@example.com" (mkUser 1 "carol@example.com" 5)).
Proof.
  apply (register_then_login (H := sample_env) 5
           (mkAuthBody (Some "carol@example.com") (Some "secret1"))
           empty_accounts).
  - intros p. apply String.eqb_refl.
  - reflexivity.
Defined.

(** * Creating comments *)

(** The bodies that [validateComment] turns down. *)
Lemma validateComment_errors (b : CommentBody) :
  snd (validateComment b) <> [] <->
  (trim (to_string (body_text b)) = "" \/
   1000 < String.length (trim (to_string (body_text b)))).
Proof.
  unfold validateComment. cbn [snd].
  set (t := trim (to_string (body_text b))).
  destruct (Nat.eqb_spec (String.length t) 0) as [Hz|Hz].
  { split; [|discriminate]. intros _. left. apply length_zero_empty, Hz. }
  destruct (Nat.ltb_spec 1000 (String.length t)) as [Hl|Hl].
  { split; [|discriminate]. intros _. right. exact Hl. }
  cbn [app]. rewrite length_zero_empty in Hz.
  split; [congruence|]. intros [Ht|Ht]; [contradiction | lia].
Qed.



Lemma unlike_then_like_witness :
  well_formed liked_store /\ likes_unique liked_store /\
  target_stored TPost 100 liked_store = true /\
  find (like_of 1 TPost 100) (likes liked_store) =
    Some (mkLike 103 1 TPost 100 13 13) /\
  data (fst (like_route TPost 1 100 20 liked_store)) = LikeData false 0 /\
  data (fst (like_route TPost 1 100 21
               (snd (like_route TPost 1 100 20 liked_store)))) =
    LikeData true 1.
Proof.
  assert (Hwf : well_formed liked_store)
    by (apply reachable_wf, liked_store_reachable).
  assert (Hu : likes_unique liked_store)
    by (apply reachable_likes_unique, liked_store_reachable).
  split; [exact Hwf|]. split; [exact Hu|]. split; [reflexivity|].
  split; [reflexivity|].
  destruct (unlike_then_like TPost 1 100 20 21 liked_store
              (mkLike 103 1 TPost 100 13 13) Hwf Hu eq_refl eq_refl)
    as (H1 & H2 & _).
  split; [exact H1 | exact H2].
Defined.

Lemma comments_and_likes_never_edited_witness :
  In (mkComment 103 "again" 100 2 (Some 102) 16 16)
     (comments (snd (handle 2 16
                       (ReplyComment 102 (mkCommentBody (Some "again") None))
                       thread_store))) /\
  (In (mkComment 103 "again" 100 2 (Some 102) 16 16) (comments thread_store) \/
   comment_id (mkComment 103 "again" 100 2 (Some 102) 16 16) =
   next_id thread_store).
Proof.
  assert (Hin : In (mkComment 103 "again" 100 2 (Some 102) 16 16)
                  (comments (snd (handle 2 16
                      (ReplyComment 102 (mkCommentBody (Some "again") None))
                      thread_store))))
    by (simpl; tauto).
  split; [exact Hin|].
  apply (proj1 (comments_and_likes_never_edited 2 16
                  (ReplyComment 102 (mkCommentBody (Some "again") None))
                  thread_store) _ Hin).
Defined.
